(** * GuessTheWord: the game script of [guess_the_word.py]

    A shallow embedding of the Streamlit script: the text helpers Python
    applies to the provider's answers, the functions that talk to the
    chat-completion provider, and [run_app], the script Streamlit re-runs
    after every widget interaction.

    Modelling choices.
    - A Python [str] is the [string] of its UTF-8 bytes: a character of
      ASCII is one byte below 128, a character beyond ASCII is two to four
      bytes from 128 on.
    - [str.strip] removes the characters of Python's white space class:
      those of ASCII, and beyond ASCII U+0085, U+00A0, U+1680, U+2000 to
      U+200A, U+2028, U+2029, U+202F, U+205F and U+3000.
    - The script compares the result of [str.upper] with an ASCII word and
      searches an ASCII word in the result of [str.lower], and does nothing
      else with either.  [Text.upper] maps the ASCII letters and, as Python
      does, every character beyond ASCII whose upper case has an ASCII
      character in it (the table [Text.special_upper]); [Text.lower] maps
      the ASCII letters.  In Python the upper case of any other character
      has no ASCII character in it, and the lower case of a character
      beyond ASCII has none of y, e and s, so the comparison and the search
      give what they give in Python.
    - [st.session_state] is a [gmap string string]: the entries the script
      itself reads and writes.  The entries Streamlit keeps for its widgets
      are not part of it.
    - The provider is a function of the call number and the request; a
      call either completes with a response that carries a text, or raises
      an [Exception].  A response without choices or without content, and
      what is raised outside [Exception], are outside the model.
    - Effects (session state, the concept file, the rendered page, the
      requests sent) are threaded through a small state monad whose
      outcome also records [st.stop()] and Python exceptions. *)

From Stdlib Require Import Ascii NArith QArith Lia.
From stdpp Require Import base option list gmap strings.

Local Open Scope N_scope.

(** ** Python text primitives *)

Module Text.

Definition code (c : ascii) : N := N_of_ascii c.

(** The text with the given bytes. *)
Fixpoint bytes (l : list N) : string :=
  match l with
  | [] => EmptyString
  | n :: l' => String (ascii_of_N n) (bytes l')
  end.

(** [str.isspace] on a character of one byte: TAB, LF, VT, FF, CR, the four
    separators FS, GS, RS, US and the space. *)
Definition isspace (c : ascii) : bool :=
  ((9 <=? code c) && (code c <=? 13))
  || ((28 <=? code c) && (code c <=? 31))
  || (code c =? 32).

(** [str.isspace] on a character of two bytes: U+0085 and U+00A0. *)
Definition isspace2 (a b : ascii) : bool :=
  (code a =? 194) && ((code b =? 133) || (code b =? 160)).

(** [str.isspace] on a character of three bytes: U+1680, U+2000 to U+200A,
    U+2028, U+2029, U+202F, U+205F and U+3000. *)
Definition isspace3 (a b c : ascii) : bool :=
  ((code a =? 225) && (code b =? 154) && (code c =? 128))
  || ((code a =? 226) && (code b =? 128)
      && (((128 <=? code c) && (code c <=? 138))
          || (code c =? 168) || (code c =? 169) || (code c =? 175)))
  || ((code a =? 226) && (code b =? 129) && (code c =? 159))
  || ((code a =? 227) && (code b =? 128) && (code c =? 128)).

Definition upper_char (c : ascii) : ascii :=
  if (97 <=? code c) && (code c <=? 122)
  then ascii_of_N (code c - 32) else c.

Definition lower_char (c : ascii) : ascii :=
  if (65 <=? code c) && (code c <=? 90)
  then ascii_of_N (code c + 32) else c.

(** The characters beyond ASCII whose upper case has an ASCII character in
    it, each with its upper case. *)
Definition special_upper : list (string * string) :=
  [ (bytes [195; 159], "SS");                      (* U+00DF *)
    (bytes [196; 177], "I");                       (* U+0131 *)
    (bytes [197; 137], bytes [202; 188; 78]);      (* U+0149 *)
    (bytes [197; 191], "S");                       (* U+017F *)
    (bytes [199; 176], bytes [74; 204; 140]);      (* U+01F0 *)
    (bytes [225; 186; 150], bytes [72; 204; 177]); (* U+1E96 *)
    (bytes [225; 186; 151], bytes [84; 204; 136]); (* U+1E97 *)
    (bytes [225; 186; 152], bytes [87; 204; 138]); (* U+1E98 *)
    (bytes [225; 186; 153], bytes [89; 204; 138]); (* U+1E99 *)
    (bytes [225; 186; 154], bytes [65; 202; 190]); (* U+1E9A *)
    (bytes [239; 172; 128], "FF");                 (* U+FB00 *)
    (bytes [239; 172; 129], "FI");                 (* U+FB01 *)
    (bytes [239; 172; 130], "FL");                 (* U+FB02 *)
    (bytes [239; 172; 131], "FFI");                (* U+FB03 *)
    (bytes [239; 172; 132], "FFL");                (* U+FB04 *)
    (bytes [239; 172; 133], "ST");                 (* U+FB05 *)
    (bytes [239; 172; 134], "ST") ].               (* U+FB06 *)

Fixpoint assoc (v : string) (l : list (string * string)) : option string :=
  match l with
  | [] => None
  | (k, u) :: l' => if String.eqb v k then Some u else assoc v l'
  end.

Definition special (v : string) : option string := assoc v special_upper.

(** [s.upper()]: a character of [special_upper] gives its upper case, any
    other byte goes through [upper_char]. *)
Fixpoint upper (s : string) : string :=
  match s with
  | EmptyString => EmptyString
  | String a s1 =>
      let plain := String (upper_char a) (upper s1) in
      match s1 with
      | EmptyString => plain
      | String b s2 =>
          match special (String a (String b EmptyString)) with
          | Some u => u +:+ upper s2
          | None =>
              match s2 with
              | EmptyString => plain
              | String c s3 =>
                  match special (String a (String b (String c EmptyString))) with
                  | Some u => u +:+ upper s3
                  | None => plain
                  end
              end
          end
      end
  end.

(** [s.lower()] *)
Fixpoint lower (s : string) : string :=
  match s with
  | EmptyString => EmptyString
  | String c s' => String (lower_char c) (lower s')
  end.

(** [s.lstrip()] *)
Fixpoint lstrip (s : string) : string :=
  match s with
  | EmptyString => EmptyString
  | String a s1 =>
      if isspace a then lstrip s1 else
      match s1 with
      | EmptyString => s
      | String b s2 =>
          if isspace2 a b then lstrip s2 else
          match s2 with
          | EmptyString => s
          | String c s3 => if isspace3 a b c then lstrip s3 else s
          end
      end
  end.

(** The text is made of white space only. *)
Definition blank (s : string) : bool :=
  match lstrip s with
  | EmptyString => true
  | String _ _ => false
  end.

(** [s.rstrip()]: the text up to the point from which only white space
    follows. *)
Fixpoint rstrip (s : string) : string :=
  match s with
  | EmptyString => EmptyString
  | String a s1 => if blank s then EmptyString else String a (rstrip s1)
  end.

(** [s.strip()] *)
Definition strip (s : string) : string := rstrip (lstrip s).

(** [t.startswith(s)] *)
Fixpoint startswith (s t : string) : bool :=
  match s, t with
  | EmptyString, _ => true
  | String _ _, EmptyString => false
  | String a s', String b t' => Ascii.eqb a b && startswith s' t'
  end.

(** [s in t] on strings *)
Fixpoint contains (s t : string) : bool :=
  startswith s t ||
  match t with
  | EmptyString => false
  | String _ t' => contains s t'
  end.

(** The text without its first [n] bytes. *)
Fixpoint skip (n : nat) (s : string) : string :=
  match n, s with
  | O, _ => s
  | S n', String _ s' => skip n' s'
  | S _, EmptyString => EmptyString
  end.

(** Truth value of a [str | None] in an [if]. *)
Definition truthy (o : option string) : bool :=
  match o with
  | Some (String _ _) => true
  | _ => false
  end.

(** The line feed written [\n] in the prompts. *)
Definition nl : string := String (ascii_of_N 10) EmptyString.

End Text.

(** ** Reading the spec's words: matching up to case

  Two texts match case-insensitively when they have the same length and
  agree position by position once letters are folded to one case; a text
  contains a token case-insensitively when one of its segments matches
  the token.  Beyond ASCII, [str.upper] also turns the dotless i into I and
  the long s into S: a text spells a token of upper-case letters when it
  is the token with every letter in one of the forms [str.upper] turns
  into it. *)

Module Caseless.

Definition same_char (a b : ascii) : bool :=
  Ascii.eqb (Text.lower_char a) (Text.lower_char b).

Fixpoint matches (s t : string) : bool :=
  match s, t with
  | EmptyString, EmptyString => true
  | String a s', String b t' => same_char a b && matches s' t'
  | _, _ => false
  end.

Definition occurs (token text : string) : Prop :=
  exists pre mid post : string,
    text = pre +:+ mid +:+ post /\ matches mid token = true.

(** The ways to write one upper-case letter: the letter, its lower-case
    form, and the single character beyond ASCII that [str.upper] turns into
    it, the dotless i (U+0131) for I and the long s (U+017F) for S. *)
Definition forms (u : ascii) : list string :=
  [String u EmptyString; String (Text.lower_char u) EmptyString]
  ++ (if Text.code u =? 73 then [Text.bytes [196; 177]]
      else if Text.code u =? 83 then [Text.bytes [197; 191]]
      else []).

(** The text is the token with every letter in one of its forms. *)
Fixpoint spells (token s : string) : bool :=
  match token with
  | EmptyString =>
      match s with
      | EmptyString => true
      | String _ _ => false
      end
  | String u token' =>
      existsb (fun v => Text.startswith v s
                        && spells token' (Text.skip (String.length v) s))
        (forms u)
  end.

End Caseless.

(** ** Requests, replies and the world the script runs in *)

(** One entry of the [messages] list of a request. *)
Record message := Message { role : string; content : string }.

(** The keyword arguments of [client.chat.completions.create]. *)
Record params := Params {
  model : string;
  messages : list message;
  temperature : Q
}.

(** What the provider does with a request: it answers with a text, or
    the client library raises an [Exception] whose text is [e]. *)
Inductive reply :=
| Completed (text : string)
| Failed (e : string).

(** The response object, reduced to [response.choices[0].message.content]. *)
Record response := Response { choice_content : string }.

(** What Streamlit has put on the page, in call order. *)
Inductive element :=
| StyleSheet
| Markdown (html : string)
| Button (label : string)
| Form (name : string)
| KeyScript
| Error (msg : string)
| Success (msg : string).

(** What the visitor did to trigger this run of the script. *)
Record widgets := Widgets {
  play_again : bool;
  user_desc : string;
  submit : bool;
  swap : bool
}.

Record world := World {
  session_state : gmap string string;
  current_concept_txt : option string;
  page : list element;
  requests : list params
}.

Inductive exn :=
| KeyError (k : string)
| AttributeError.

Inductive outcome (A : Type) :=
| Value (a : A)
| Stopped
| Raised (e : exn).
Arguments Value {A} a.
Arguments Stopped {A}.
Arguments Raised {A} e.

Definition script (A : Type) : Type := world -> outcome A * world.

#[global] Instance script_ret : MRet script := fun A a w => (Value a, w).

#[global] Instance script_bind : MBind script := fun A B f c w =>
  match c w with
  | (Value a, w') => f a w'
  | (Stopped, w') => (Stopped, w')
  | (Raised e, w') => (Raised e, w')
  end.

Definition render (e : element) : script unit := fun w =>
  (Value tt, World (session_state w) (current_concept_txt w)
                   (page w ++ [e]) (requests w)).

Definition st_markdown (html : string) : script unit := render (Markdown html).
Definition st_error (msg : string) : script unit := render (Error msg).
Definition st_success (msg : string) : script unit := render (Success msg).

(** [st.button(label)]: draws the button and tells whether it was pressed. *)
Definition st_button (label : string) (pressed : bool) : script bool :=
  render (Button label);; mret pressed.

(** [st.stop()] *)
Definition st_stop {A : Type} : script A := fun w => (Stopped, w).

(** [key in st.session_state] *)
Definition session_contains (k : string) : script bool := fun w =>
  (Value (bool_decide (is_Some (session_state w !! k))), w).

(** [st.session_state[key]] *)
Definition session_get (k : string) : script string := fun w =>
  match session_state w !! k with
  | Some v => (Value v, w)
  | None => (Raised (KeyError k), w)
  end.

(** [st.session_state[key] = v] *)
Definition session_set (k v : string) : script unit := fun w =>
  (Value tt, World (<[k := v]> (session_state w)) (current_concept_txt w)
                   (page w) (requests w)).

(** [response.choices[0].message.content] *)
Definition message_content (r : option response) : script string := fun w =>
  match r with
  | Some r => (Value (choice_content r), w)
  | None => (Raised AttributeError, w)
  end.

Section Script.

(** The provider: the reply to the [n]-th request of a run. *)
Variable provider : nat -> params -> reply.

(** The call [client.chat.completions.create] with the keyword arguments. *)
Definition chat_completions_create (p : params) : script reply := fun w =>
  (Value (provider (length (requests w)) p),
   World (session_state w) (current_concept_txt w) (page w) (requests w ++ [p])).

Definition safe_chat_completion_create (kwargs : params)
  : script (option response * option string) :=
  r ← chat_completions_create kwargs;
  match r with
  | Completed text => mret (Some (Response text), None)
  | Failed e => mret (None, Some ("OpenAI API call failed: " +:+ e))
  end.

Definition generate_params : params :=
  Params "gpt-4o-mini"
    [ Message "system" "You are an AI that comes up with a guessable concept.";
      Message "user" "Generate a single  concept or word that is guessable but not too obscure. Please avoid cliché and overused words like something with 'droom', 'zon' or similar terms. It should be accessible and it should be in Dutch." ]
    1.

Definition concept_placeholder : string := "Error! Could not generate concept.".

Definition generate_random_concept : script string :=
  '(response, error) ← safe_chat_completion_create generate_params;
  if Text.truthy error then
    st_error (default "" error);;
    mret concept_placeholder
  else
    text ← message_content response;
    mret (Text.strip text).

Definition verify_params (original_concept guess : string) : params :=
  Params "gpt-4o"
    [ Message "system" "You are a helpful AI that responds with either 'yes' or 'no'.";
      Message "user"
        ("Original concept: '" +:+ original_concept +:+ "'" +:+ Text.nl +:+
         "Guess: '" +:+ guess +:+ "'" +:+ Text.nl +:+
         "Are they the same concept? Answer only with yes or no.") ]
    0.

Definition verify_guess (original_concept guess : string) : script bool :=
  '(response, error) ← safe_chat_completion_create (verify_params original_concept guess);
  if Text.truthy error then
    st_error (default "" error);;
    mret false
  else
    text ← message_content response;
    let answer := Text.lower (Text.strip text) in
    mret (Text.contains "yes" answer).

Definition cheating_params (concept user_description : string) : params :=
  Params "gpt-4o-mini"
    [ Message "system" "You are an AI that checks if the user is cheating by revealing the concept directly. Respond only with CHEATING or NOT CHEATING.";
      Message "user"
        ("Concept: '" +:+ concept +:+ "'" +:+ Text.nl +:+
         "User description: '" +:+ user_description +:+ "'" +:+ Text.nl +:+
         "Determine if the user's description reveals the concept. If the description includes the exact concept respond with CHEATING. Otherwise, respond with NOT CHEATING. " +:+
         "Please respond with exactly one word (in all caps): either CHEATING or NOT CHEATING.") ]
    0.

Definition check_if_cheating (concept user_description : string) : script bool :=
  '(response, error) ← safe_chat_completion_create (cheating_params concept user_description);
  if Text.truthy error then
    st_error (default "" error);;
    mret false
  else
    text ← message_content response;
    let verdict := Text.upper (Text.strip text) in
    mret (String.eqb verdict "CHEATING").

Definition describe_params (concept : string) : params :=
  Params "gpt-4o"
    [ Message "system" "You are a playful AI giving cryptic hints.";
      Message "user" ("Describe the concept '" +:+ concept +:+ "' without revealing its name.") ]
    (7 # 10).

Definition describe_concept (concept : string) : script string :=
  '(response, error) ← safe_chat_completion_create (describe_params concept);
  if Text.truthy error then
    st_error (default "" error);;
    mret "Error describing concept. See logs."
  else
    text ← message_content response;
    mret (Text.strip text).

(** Writes [concept_storage/current_concept.txt]. *)
Definition store_concept_locally (concept : string) : script unit := fun w =>
  (Value tt, World (session_state w) (Some concept) (page w) (requests w)).

Definition swap_roles (current_role : string) : string :=
  if String.eqb current_role "USER_DESCRIBES" then "LLM_DESCRIBES" else "USER_DESCRIBES".

(** The form [guess_form]: a text area and its submit button. *)
Definition st_form (name : string) (ui : widgets) : script (string * bool) :=
  render (Form name);; mret (user_desc ui, submit ui).

Definition load_custom_css : script unit := render StyleSheet.

Definition refresh : string := "<meta http-equiv='refresh' content='0'>".

Definition concept_card (concept : string) : string :=
  "<div class='concept-card'>Current Concept: <strong>" +:+ concept +:+ "</strong></div>".

Definition guess_card (llm_guess : string) : string :=
  "<div class='concept-card'>LLM's guess: <strong>" +:+ llm_guess +:+ "</strong></div>".

Definition guesser_params (user_description : string) : params :=
  Params "gpt-4o"
    [ Message "system" "You are a guesser AI, you only know the user's new description.";
      Message "user" ("Guess this concept based on: " +:+ user_description) ]
    (7 # 10).

Definition cheating_notice : string :=
  "Cheating! Please rewrite the description without revealing the concept directly.".

Definition guess_correct : string := "OpenAI verified: The LLM's guess is correct!".

Definition guess_wrong : string := "OpenAI says: The LLM's guess is not correct.".

(** The body of [if submitted:]. *)
Definition on_submit (user_description : string) : script unit :=
  secret ← session_get "concept";
  cheating ← check_if_cheating secret user_description;
  if (cheating : bool) then
    st_error cheating_notice
  else
    '(response, error) ← safe_chat_completion_create (guesser_params user_description);
    if Text.truthy error then
      st_error (default "" error)
    else if bool_decide (is_Some response) then
      text ← message_content response;
      let llm_guess := Text.strip text in
      st_markdown (guess_card llm_guess);;
      secret ← session_get "concept";
      correct ← verify_guess secret llm_guess;
      if (correct : bool) then st_success guess_correct else st_error guess_wrong
    else mret tt.

Definition run_app (ui : widgets) : script (gmap string string) :=
  load_custom_css;;
  st_markdown "<div class='header'>Guess the Concept</div>";;
  known ← session_contains "concept";
  concept ← (if negb known then
               concept ← generate_random_concept;
               session_set "concept" concept;;
               store_concept_locally concept;;
               mret concept
             else session_get "concept");
  has_role ← session_contains "role_mode";
  (if negb has_role then session_set "role_mode" "USER_DESCRIBES" else mret tt);;
  again ← st_button "Play Again" (play_again ui);
  (if (again : bool) then
     fresh ← generate_random_concept;
     session_set "concept" fresh;;
     stored ← session_get "concept";
     store_concept_locally stored;;
     session_set "role_mode" "USER_DESCRIBES";;
     st_markdown refresh;;
     st_stop
   else mret tt);;
  st_markdown (concept_card concept);;
  role_mode ← session_get "role_mode";
  (if String.eqb role_mode "USER_DESCRIBES" then
     '(user_description, submitted) ← st_form "guess_form" ui;
     render KeyScript;;
     if (submitted : bool) then on_submit user_description else mret tt
   else mret tt);;
  swapped ← st_button "Swap Roles" (swap ui);
  (if (swapped : bool) then
     role_mode ← session_get "role_mode";
     session_set "role_mode" (swap_roles role_mode);;
     st_markdown refresh;;
     st_stop
   else mret tt);;
  mret {[ "message" := "App ran successfully" ]}.

End Script.

(** ** Observations on a finished run *)

Definition GameState : Type := option string * option string.

(** The pair (Concept, RoleMode) held in the session. *)
Definition game_state (w : world) : GameState :=
  (session_state w !! "concept", session_state w !! "role_mode").

(** An empty page and request log over the given session and file. *)
Definition fresh_run (session : gmap string string) (file : option string) : world :=
  World session file [] [].

Definition system_prompt (p : params) : option string :=
  content <$> head (filter (fun m => bool_decide (role m = "system")) (messages p)).

Definition user_prompt (p : params) : option string :=
  content <$> head (filter (fun m => bool_decide (role m = "user")) (messages p)).

(** A request is the Guesser's, the Verifier's, ... by its system prompt. *)
Definition is_guesser_call (p : params) : bool :=
  bool_decide (system_prompt p = system_prompt (guesser_params "")).

Definition is_verifier_call (p : params) : bool :=
  bool_decide (system_prompt p = system_prompt (verify_params "" "")).

Definition is_generate_call (p : params) : bool :=
  bool_decide (system_prompt p = system_prompt generate_params).

(** Elements that show a Guess or a Verdict. *)
Definition shows_guess (e : element) : Prop :=
  exists g, e = Markdown (guess_card g).

Definition shows_verdict (e : element) : Prop :=
  e = Success guess_correct \/ e = Error guess_wrong.

(** Every character of the text is an ASCII character. *)
Fixpoint ascii_only (s : string) : bool :=
  match s with
  | EmptyString => true
  | String c s' => (Text.code c <? 128) && ascii_only s'
  end.

(** A byte of white space or of a character beyond ASCII. *)
Definition pad (c : ascii) : bool := Text.isspace c || (128 <=? Text.code c).

Fixpoint allpad (s : string) : bool :=
  match s with
  | EmptyString => true
  | String c s' => pad c && allpad s'
  end.

(** No character of the text is white space or beyond ASCII. *)
Fixpoint spaceless (s : string) : bool :=
  match s with
  | EmptyString => true
  | String c s' => negb (pad c) && spaceless s'
  end.

(** The text starts with a white space character. *)
Definition heads (s : string) : bool :=
  match s with
  | EmptyString => false
  | String a s1 =>
      Text.isspace a ||
      match s1 with
      | EmptyString => false
      | String b s2 =>
          Text.isspace2 a b ||
          match s2 with
          | EmptyString => false
          | String c _ => Text.isspace3 a b c
          end
      end
  end.

(** An upper-case ASCII letter other than S and F, the two letters that a
    character of [Text.special_upper] gives with a second letter after. *)
Definition capital (x : ascii) : bool :=
  (65 <=? Text.code x) && (Text.code x <=? 90)
  && negb (Text.code x =? 83) && negb (Text.code x =? 70).

Fixpoint capitals (s : string) : bool :=
  match s with
  | EmptyString => true
  | String x s' => capital x && capitals s'
  end.

(** The text is empty or starts with an ASCII character. *)
Definition ascii_head (w : string) : bool :=
  match w with
  | EmptyString => true
  | String y _ => Text.code y <? 128
  end.

(** The world after one more request has gone out. *)
Definition sent (p : params) (w : world) : world :=
  World (session_state w) (current_concept_txt w) (page w) (requests w ++ [p]).

(** The world after one more element has been put on the page. *)
Definition shown (e : element) (w : world) : world :=
  World (session_state w) (current_concept_txt w) (page w ++ [e]) (requests w).

(** The text [safe_chat_completion_create] reports for an exception. *)
Definition api_error (e : string) : string := "OpenAI API call failed: " +:+ e.

(** The two RoleMode variants. *)
Definition is_role_mode (s : string) : Prop :=
  s = "USER_DESCRIBES" \/ s = "LLM_DESCRIBES".

(** ** Scenarios *)

(** A provider that answers the successive requests from a list and fails
    once the list is used up. *)
Definition scripted (answers : list reply) : nat -> params -> reply :=
  fun n _ => default (Failed "no answer") (answers !! n).

(** A provider that is down. *)
Definition outage : nat -> params -> reply := fun _ _ => Failed "timeout".

(** A session in the middle of a game. *)
Definition session_of (concept role_mode : string) : gmap string string :=
  <["concept" := concept]> (<["role_mode" := role_mode]> ∅).

(** Some request of the run was answered by an exception. *)
Definition oracle_failed (provider : nat -> params -> reply) (w : world) : Prop :=
  exists n p e, requests w !! n = Some p /\ provider n p = Failed e.

(** A request is the Describer's by its system prompt. *)
Definition is_describer_call (p : params) : bool :=
  bool_decide (system_prompt p = system_prompt (describe_params "")).

(** [Q] holds of the outcome and the world a run has ended with. *)
Definition ends {A : Type} (r : outcome A * world)
    (Q : outcome A -> world -> Prop) : Prop :=
  Q r.1 r.2.

(** ** The model on the scenarios of the game *)

Example upper_demo : Text.upper "Not cheating" = "NOT CHEATING".
Proof. reflexivity. Qed.

Example strip_demo :
  Text.strip (" " +:+ Text.nl +:+ "yes ok  " +:+ Text.nl) = "yes ok".
Proof. reflexivity. Qed.

Example contains_demo : Text.contains "yes" "oh yesterday" = true.
Proof. reflexivity. Qed.

(** Beyond ASCII: a dotless i (U+0131) in the token, and no-break spaces
    (U+00A0), an em space (U+2003) and a line feed around the answer. *)
Example upper_dotless :
  Text.upper (Text.bytes [99; 104; 101; 97; 116; 196; 177; 110; 103]) = "CHEATING".
Proof. reflexivity. Qed.

Example strip_beyond_ascii :
  Text.strip (Text.bytes [194; 160; 32; 107; 97; 97; 115; 226; 128; 131; 10])
  = "kaas".
Proof. reflexivity. Qed.

Example spells_dotless :
  Caseless.spells "CHEATING"
    (Text.bytes [99; 104; 101; 97; 116; 196; 177; 110; 103]) = true.
Proof. reflexivity. Qed.

Example spells_other : Caseless.spells "CHEATING" "NOT CHEATING" = false.
Proof. reflexivity. Qed.

Example detector_dotless :
  (check_if_cheating
     (fun _ _ => Completed (Text.bytes [99; 104; 101; 97; 116; 196; 177; 110; 103]))
     "vulkaan" "It's called vulkaan" (fresh_run ∅ None)).1
  = Value true.
Proof. reflexivity. Qed.

Example detector_no_break_space :
  (check_if_cheating
     (fun _ _ => Completed (Text.bytes [194; 160; 67; 72; 69; 65; 84; 73; 78; 71;
                                        194; 160]))
     "vulkaan" "It's called vulkaan" (fresh_run ∅ None)).1
  = Value true.
Proof. reflexivity. Qed.

Example concept_no_break_space :
  (generate_random_concept
     (fun _ _ => Completed (Text.bytes [194; 160; 107; 97; 97; 115; 226; 128; 131]))
     (fresh_run ∅ None)).1
  = Value "kaas".
Proof. reflexivity. Qed.

(** A mountain that can erupt: not cheating, guessed, verified. *)
Example round_won :
  run_app (scripted [Completed "NOT CHEATING"; Completed "volcano"; Completed "yes"])
    (Widgets false "A mountain that can erupt" true false)
    (fresh_run (session_of "vulkaan" "USER_DESCRIBES") None)
  = (Value {[ "message" := "App ran successfully" ]},
     World (session_of "vulkaan" "USER_DESCRIBES") None
       [ StyleSheet;
         Markdown "<div class='header'>Guess the Concept</div>";
         Button "Play Again";
         Markdown (concept_card "vulkaan");
         Form "guess_form";
         KeyScript;
         Markdown (guess_card "volcano");
         Success guess_correct;
         Button "Swap Roles" ]
       [ cheating_params "vulkaan" "A mountain that can erupt";
         guesser_params "A mountain that can erupt";
         verify_params "vulkaan" "volcano" ]).
Proof. reflexivity. Qed.

(** The first run of a visit: a concept is generated, stored and shown. *)
Example first_entry :
  run_app (scripted [Completed "Kaas"]) (Widgets false "" false false)
    (fresh_run ∅ None)
  = (Value {[ "message" := "App ran successfully" ]},
     World (session_of "Kaas" "USER_DESCRIBES") (Some "Kaas")
       [ StyleSheet;
         Markdown "<div class='header'>Guess the Concept</div>";
         Button "Play Again";
         Markdown (concept_card "Kaas");
         Form "guess_form";
         KeyScript;
         Button "Swap Roles" ]
       [ generate_params ]).
Proof. vm_compute. reflexivity. Qed.

(** ** Characters and case *)

Section CharFacts.

Lemma code_inj (a b : ascii) : Text.code a = Text.code b -> a = b.
Proof.
  unfold Text.code. intros H.
  rewrite <- (ascii_N_embedding a), <- (ascii_N_embedding b).
  now rewrite H.
Qed.

Lemma code_bound (a : ascii) : Text.code a < 256.
Proof. apply N_ascii_bounded. Qed.

Lemma code_upper_char (c : ascii) :
  Text.code (Text.upper_char c) =
  if (97 <=? Text.code c) && (Text.code c <=? 122)
  then Text.code c - 32 else Text.code c.
Proof.
  unfold Text.upper_char.
  destruct ((97 <=? Text.code c) && (Text.code c <=? 122)) eqn:E; [|done].
  apply andb_true_iff in E as [_ E2%N.leb_le].
  unfold Text.code at 1. apply N_ascii_embedding. lia.
Qed.

Lemma code_lower_char (c : ascii) :
  Text.code (Text.lower_char c) =
  if (65 <=? Text.code c) && (Text.code c <=? 90)
  then Text.code c + 32 else Text.code c.
Proof.
  unfold Text.lower_char.
  destruct ((65 <=? Text.code c) && (Text.code c <=? 90)) eqn:E; [|done].
  apply andb_true_iff in E as [_ E2%N.leb_le].
  unfold Text.code at 1. apply N_ascii_embedding. lia.
Qed.

(** Decide the range tests that occur in a goal about character codes. *)
Ltac ranges :=
  repeat match goal with
    | |- context [?x <=? ?y] => destruct (N.leb_spec x y)
    | H : context [?x <=? ?y] |- _ => destruct (N.leb_spec x y)
    | |- context [?x =? ?y] => destruct (N.eqb_spec x y)
    | H : context [?x =? ?y] |- _ => destruct (N.eqb_spec x y)
    end;
  cbn [andb orb negb] in *.

(** Folding to upper case and folding to lower case identify the same
    pairs of characters. *)
Lemma upper_char_eq_iff (a b : ascii) :
  Text.upper_char a = Text.upper_char b <-> Text.lower_char a = Text.lower_char b.
Proof.
  split; intros H; apply (f_equal Text.code) in H; apply code_inj;
    rewrite ?code_upper_char, ?code_lower_char in *;
    pose proof (code_bound a); pose proof (code_bound b);
    ranges; lia.
Qed.

Lemma same_char_upper (a b : ascii) :
  Caseless.same_char a b = true <-> Text.upper_char a = Text.upper_char b.
Proof.
  unfold Caseless.same_char. rewrite Ascii.eqb_eq. symmetry.
  apply upper_char_eq_iff.
Qed.

Lemma isspace_lower_char (c : ascii) :
  Text.isspace (Text.lower_char c) = Text.isspace c.
Proof.
  unfold Text.isspace. rewrite code_lower_char.
  pose proof (code_bound c). ranges; lia.
Qed.

Lemma pad_lower_char (c : ascii) : pad (Text.lower_char c) = pad c.
Proof.
  unfold pad. rewrite isspace_lower_char. f_equal.
  rewrite code_lower_char. pose proof (code_bound c). ranges; lia.
Qed.

(** The bytes of a character beyond ASCII are left as they are. *)
Lemma lower_char_high (c : ascii) : 128 <= Text.code c -> Text.lower_char c = c.
Proof.
  intros H. apply code_inj. rewrite code_lower_char. ranges; lia.
Qed.

Lemma same_char_high (a b : ascii) :
  128 <= Text.code a -> Caseless.same_char a b = true -> b = a.
Proof.
  unfold Caseless.same_char. rewrite Ascii.eqb_eq. intros Ha H.
  apply (f_equal Text.code) in H. apply code_inj.
  rewrite !code_lower_char in H. ranges; lia.
Qed.

Lemma same_char_low (a b : ascii) :
  Text.code a < 128 -> Caseless.same_char a b = true -> Text.code b < 128.
Proof.
  unfold Caseless.same_char. rewrite Ascii.eqb_eq. intros Ha H.
  apply (f_equal Text.code) in H.
  rewrite !code_lower_char in H. ranges; lia.
Qed.

Lemma same_char_sym (a b : ascii) :
  Caseless.same_char a b = Caseless.same_char b a.
Proof.
  unfold Caseless.same_char.
  destruct (Ascii.eqb_spec (Text.lower_char a) (Text.lower_char b)) as [->|Hne].
  - by rewrite Ascii.eqb_refl.
  - symmetry. apply Ascii.eqb_neq. congruence.
Qed.

(** The two ASCII characters that an upper-case letter is the upper case
    of. *)
Lemma upper_char_letter (x a : ascii) :
  65 <= Text.code x <= 90 ->
  Text.upper_char a = x -> a = x \/ a = Text.lower_char x.
Proof.
  intros Hx H. apply (f_equal Text.code) in H. rewrite code_upper_char in H.
  pose proof (code_bound a).
  destruct ((97 <=? Text.code a) && (Text.code a <=? 122)) eqn:E.
  - right. apply code_inj. rewrite code_lower_char.
    apply andb_true_iff in E as [E1%N.leb_le E2%N.leb_le]. ranges; lia.
  - left. by apply code_inj.
Qed.

Lemma upper_char_of_letter (x : ascii) :
  65 <= Text.code x <= 90 ->
  Text.upper_char x = x /\ Text.upper_char (Text.lower_char x) = x
  /\ Text.code (Text.lower_char x) < 128.
Proof.
  intros Hx. repeat split; try apply code_inj;
    rewrite ?code_upper_char, ?code_lower_char; ranges; lia.
Qed.

End CharFacts.

(** ** Texts: case folding, stripping and searching *)

Section TextFacts.

Lemma lower_eq_matches (s t : string) :
  Text.lower s = Text.lower t <-> Caseless.matches s t = true.
Proof.
  revert t. induction s as [|a s IH]; intros [|b t]; cbn; try easy.
  unfold Caseless.same_char.
  rewrite andb_true_iff, Ascii.eqb_eq, <- IH.
  split; [intros [= -> ->] | intros [-> ->]]; done.
Qed.

Lemma lower_app (s t : string) :
  Text.lower (s +:+ t) = Text.lower s +:+ Text.lower t.
Proof. induction s as [|a s IH]; simpl; [done | by rewrite IH]. Qed.

(** A split of the folded text comes from a split of the text. *)
Lemma lower_split (t a b : string) :
  Text.lower t = a +:+ b ->
  exists a' b', t = a' +:+ b' /\ Text.lower a' = a /\ Text.lower b' = b.
Proof.
  revert t. induction a as [|x a IH]; intros t H.
  - exists EmptyString, t. done.
  - destruct t as [|y t]; [done|]. cbn in H. injection H as Hx Ht.
    destruct (IH _ Ht) as (a' & b' & -> & Ha & Hb).
    exists (String y a'), b'. cbn. by rewrite Hx, Ha.
Qed.

Lemma startswith_spec (s t : string) :
  Text.startswith s t = true <-> exists post, t = s +:+ post.
Proof.
  revert t. induction s as [|a s IH]; intros t; cbn.
  - split; [eauto | done].
  - destruct t as [|b t].
    + split; [done | intros [? [=]]].
    + rewrite andb_true_iff, Ascii.eqb_eq, IH. split.
      * intros [-> [post ->]]. eauto.
      * intros [post [= -> ->]]. eauto.
Qed.

Lemma contains_spec (s t : string) :
  Text.contains s t = true <-> exists pre post, t = pre +:+ s +:+ post.
Proof.
  induction t as [|b t IH]; cbn [Text.contains];
    rewrite orb_true_iff, startswith_spec.
  - split.
    + intros [[post ->] | [=]]. by exists EmptyString, post.
    + intros ([|? pre] & post & H); [left; eauto | done].
  - rewrite IH. split.
    + intros [[post ->] | (pre & post & ->)].
      * by exists EmptyString, post.
      * by exists (String b pre), post.
    + intros ([|x pre] & post & H).
      * left. eauto.
      * right. injection H as -> ->. eauto.
Qed.

(** Searching the folded text for a folded token is searching the text for
    a segment that matches the token up to case. *)
Lemma contains_lower_occurs (token t : string) :
  Text.lower token = token ->
  Text.contains token (Text.lower t) = true <-> Caseless.occurs token t.
Proof.
  intros Htok. rewrite contains_spec. unfold Caseless.occurs. split.
  - intros (pre & post & H).
    apply lower_split in H as (pre' & rest & -> & _ & H).
    apply lower_split in H as (mid & post' & -> & Hmid & _).
    exists pre', mid, post'. split; [done|].
    apply lower_eq_matches. congruence.
  - intros (pre & mid & post & -> & Hm).
    apply lower_eq_matches in Hm.
    exists (Text.lower pre), (Text.lower post).
    rewrite !lower_app. congruence.
Qed.

Lemma append_cons (a : ascii) (s t : string) :
  String a s +:+ t = String a (s +:+ t).
Proof. reflexivity. Qed.

Lemma append_nil_r (s : string) : s +:+ EmptyString = s.
Proof.
  induction s as [|a s IH]; [done|].
  change (String a (s +:+ EmptyString) = String a s). by rewrite IH.
Qed.

Lemma append_assoc (s t u : string) : (s +:+ t) +:+ u = s +:+ t +:+ u.
Proof.
  induction s as [|a s IH]; [done|].
  change (String a ((s +:+ t) +:+ u) = String a (s +:+ t +:+ u)). by rewrite IH.
Qed.

Lemma length_append (s t : string) :
  String.length (s +:+ t) = (String.length s + String.length t)%nat.
Proof.
  induction s as [|a s IH]; [done|].
  change (S (String.length (s +:+ t))
          = S (String.length s + String.length t)). by rewrite IH.
Qed.

(** Induction on the length of a text. *)
Lemma string_len_ind (P : string -> Prop) :
  (forall s, (forall t, (String.length t < String.length s)%nat -> P t) -> P s) ->
  forall s, P s.
Proof.
  intros step s.
  assert (H : forall n t, (String.length t < n)%nat -> P t).
  { induction n as [|n IH]; intros t Ht; [lia|].
    apply step. intros t' Ht'. apply IH. lia. }
  apply (H (S (String.length s))). lia.
Qed.

(** *** White space at the ends *)

Lemma isspace2_high (a b : ascii) :
  Text.isspace2 a b = true -> 128 <= Text.code a /\ 128 <= Text.code b.
Proof.
  unfold Text.isspace2.
  rewrite andb_true_iff, orb_true_iff, !N.eqb_eq. lia.
Qed.

Lemma isspace3_high (a b c : ascii) :
  Text.isspace3 a b c = true ->
  128 <= Text.code a /\ 128 <= Text.code b /\ 128 <= Text.code c.
Proof.
  unfold Text.isspace3.
  rewrite !orb_true_iff, !andb_true_iff, !orb_true_iff, !andb_true_iff,
    !N.eqb_eq, !N.leb_le.
  lia.
Qed.

Lemma pad_space (a : ascii) : Text.isspace a = true -> pad a = true.
Proof. unfold pad. by intros ->. Qed.

Lemma pad_high (a : ascii) : 128 <= Text.code a -> pad a = true.
Proof. unfold pad. intros H%N.leb_le. rewrite H. apply orb_true_r. Qed.

(** What [lstrip] removes is white space: bytes that are white space
    themselves or belong to a character beyond ASCII. *)
Lemma lstrip_split (s : string) :
  exists p, s = p +:+ Text.lstrip s /\ allpad p = true.
Proof.
  induction s as [s IH] using string_len_ind.
  destruct s as [|a s1]; [by exists EmptyString|].
  cbn [Text.lstrip]. destruct (Text.isspace a) eqn:Ha.
  { destruct (IH s1) as (p & Hp & Hpad); [cbn; lia|].
    exists (String a p). rewrite append_cons, <- Hp. cbn [allpad].
    by rewrite Hpad, (pad_space _ Ha). }
  destruct s1 as [|b s2]; [by exists EmptyString|].
  destruct (Text.isspace2 a b) eqn:Hab.
  { destruct (IH s2) as (p & Hp & Hpad); [cbn; lia|].
    apply isspace2_high in Hab as [Ha' Hb'].
    exists (String a (String b p)). rewrite !append_cons, <- Hp. cbn [allpad].
    by rewrite Hpad, (pad_high _ Ha'), (pad_high _ Hb'). }
  destruct s2 as [|c s3]; [by exists EmptyString|].
  destruct (Text.isspace3 a b c) eqn:Habc; [|by exists EmptyString].
  destruct (IH s3) as (p & Hp & Hpad); [cbn; lia|].
  apply isspace3_high in Habc as (Ha' & Hb' & Hc').
  exists (String a (String b (String c p))). rewrite !append_cons, <- Hp.
  cbn [allpad].
  by rewrite Hpad, (pad_high _ Ha'), (pad_high _ Hb'), (pad_high _ Hc').
Qed.

Lemma blank_allpad (s : string) : Text.blank s = true -> allpad s = true.
Proof.
  unfold Text.blank. intros H.
  destruct (lstrip_split s) as (p & Hp & Hpad).
  destruct (Text.lstrip s); [|done].
  rewrite append_nil_r in Hp. by subst.
Qed.

(** What [rstrip] removes is a text of white space only. *)
Lemma rstrip_split (s : string) :
  exists q, s = Text.rstrip s +:+ q /\ Text.blank q = true.
Proof.
  induction s as [|a s1 IH]; [by exists EmptyString|].
  cbn [Text.rstrip]. destruct (Text.blank (String a s1)) eqn:Hb.
  - by exists (String a s1).
  - destruct IH as (q & Hq & Hblank). exists q.
    by rewrite append_cons, <- Hq.
Qed.

Lemma strip_split (t : string) :
  exists p q, t = p +:+ Text.strip t +:+ q /\ allpad p = true /\ allpad q = true.
Proof.
  destruct (lstrip_split t) as (p & Hp & Hpad).
  destruct (rstrip_split (Text.lstrip t)) as (q & Hq & Hblank).
  exists p, q. unfold Text.strip. rewrite <- Hq, <- Hp.
  auto using blank_allpad.
Qed.

Lemma allpad_lower (s : string) : allpad (Text.lower s) = allpad s.
Proof.
  induction s as [|a s IH]; cbn; [done|]. by rewrite pad_lower_char, IH.
Qed.

(** *** Searching past white space *)

Lemma startswith_pad (a c : ascii) (s t : string) :
  pad a = false -> pad c = true ->
  Text.startswith (String a s) (String c t) = false.
Proof.
  intros Ha Hc. cbn. destruct (Ascii.eqb_spec a c) as [->|]; [congruence | done].
Qed.

Lemma contains_pads (a : ascii) (n q : string) :
  pad a = false -> allpad q = true -> Text.contains (String a n) q = false.
Proof.
  intros Ha. induction q as [|c q IH]; [done|].
  cbn [allpad]. intros [Hc Hq]%andb_true_iff.
  cbn [Text.contains]. by rewrite (startswith_pad _ _ _ _ Ha Hc), IH.
Qed.

Lemma contains_skip_pads (a : ascii) (n p x : string) :
  pad a = false -> allpad p = true ->
  Text.contains (String a n) (p +:+ x) = Text.contains (String a n) x.
Proof.
  intros Ha. induction p as [|c p IH]; [done|].
  cbn [allpad]. intros [Hc Hp]%andb_true_iff.
  rewrite append_cons. cbn [Text.contains].
  by rewrite (startswith_pad _ _ _ _ Ha Hc), IH.
Qed.

Lemma startswith_app_pads (n x q : string) :
  spaceless n = true -> allpad q = true ->
  Text.startswith n (x +:+ q) = Text.startswith n x.
Proof.
  revert x. induction n as [|a n IH]; intros x Hn Hq; [done|].
  cbn in Hn. apply andb_true_iff in Hn as [Ha%negb_true_iff Hn].
  destruct x as [|c x].
  - change (EmptyString +:+ q) with q. destruct q as [|c q]; [done|].
    cbn in Hq. apply andb_true_iff in Hq as [Hc _].
    by rewrite (startswith_pad _ _ _ _ Ha Hc).
  - rewrite append_cons. cbn [Text.startswith]. by rewrite IH.
Qed.

Lemma contains_app_pads (a : ascii) (n x q : string) :
  spaceless (String a n) = true -> allpad q = true ->
  Text.contains (String a n) (x +:+ q) = Text.contains (String a n) x.
Proof.
  intros Hn Hq. pose proof Hn as Hn'. cbn in Hn'.
  apply andb_true_iff in Hn' as [Ha%negb_true_iff _].
  induction x as [|c x IH].
  - change (EmptyString +:+ q) with q. by rewrite (contains_pads _ _ _ Ha Hq).
  - change (String c x +:+ q) with (String c (x +:+ q)).
    cbn [Text.contains]. rewrite IH.
    change (String c (x +:+ q)) with (String c x +:+ q).
    by rewrite (startswith_app_pads _ _ _ Hn Hq).
Qed.

(** Stripping does not change whether a text of plain ASCII characters
    occurs in the folded text. *)
Lemma contains_lower_strip (a : ascii) (n t : string) :
  spaceless (String a n) = true ->
  Text.contains (String a n) (Text.lower (Text.strip t))
  = Text.contains (String a n) (Text.lower t).
Proof.
  intros Hn. destruct (strip_split t) as (p & q & Ht & Hp & Hq).
  rewrite Ht at 2. rewrite !lower_app.
  pose proof Hn as Hn'. cbn in Hn'.
  apply andb_true_iff in Hn' as [Ha%negb_true_iff _].
  rewrite contains_skip_pads by (by rewrite ?allpad_lower).
  by rewrite contains_app_pads by (by rewrite ?allpad_lower).
Qed.

End TextFacts.

(** ** Stripping twice *)

Section StripTwice.

Lemma lstrip_fix (s : string) : heads s = false -> Text.lstrip s = s.
Proof.
  destruct s as [|a [|b [|c s3]]]; cbn [heads Text.lstrip]; try done.
  - by intros ->%orb_false_iff%proj1.
  - intros [-> [-> _]%orb_false_iff]%orb_false_iff. done.
  - intros [-> [-> ->]%orb_false_iff]%orb_false_iff. done.
Qed.

Lemma lstrip_heads (s : string) : heads (Text.lstrip s) = false.
Proof.
  induction s as [s IH] using string_len_ind.
  destruct s as [|a s1]; [done|].
  cbn [Text.lstrip]. destruct (Text.isspace a) eqn:Ha.
  { apply IH. cbn. lia. }
  destruct s1 as [|b s2]; [cbn; by rewrite Ha|].
  destruct (Text.isspace2 a b) eqn:Hab.
  { apply IH. cbn. lia. }
  destruct s2 as [|c s3]; [cbn; by rewrite Ha, Hab|].
  destruct (Text.isspace3 a b c) eqn:Habc.
  { apply IH. cbn. lia. }
  cbn. by rewrite Ha, Hab, Habc.
Qed.

Lemma lstrip_idem (s : string) : Text.lstrip (Text.lstrip s) = Text.lstrip s.
Proof. apply lstrip_fix, lstrip_heads. Qed.

(** A text that starts with white space still does when it goes on. *)
Lemma heads_prefix (r q : string) : heads (r +:+ q) = false -> heads r = false.
Proof.
  destruct r as [|a [|b [|c r3]]]; [done| | |]; rewrite ?append_cons;
    cbn [heads]; destruct (Text.isspace a); cbn [orb]; try done.
  all: destruct (Text.isspace2 a b); cbn [orb]; try done.
Qed.

Lemma lstrip_rstrip (s : string) :
  heads s = false -> Text.lstrip (Text.rstrip s) = Text.rstrip s.
Proof.
  intros H. apply lstrip_fix.
  destruct (rstrip_split s) as (q & Hq & _).
  rewrite Hq in H. by apply heads_prefix in H.
Qed.

(** White space followed by more text strips to what the rest strips to. *)
Lemma lstrip_app_blank (x q : string) :
  Text.blank x = true -> Text.lstrip (x +:+ q) = Text.lstrip q.
Proof.
  unfold Text.blank. induction x as [x IH] using string_len_ind.
  destruct x as [|a x1]; [done|].
  rewrite append_cons. cbn [Text.lstrip].
  destruct (Text.isspace a) eqn:Ha.
  { intros H. apply IH; [cbn; lia | done]. }
  destruct x1 as [|b x2]; [done|].
  rewrite append_cons. destruct (Text.isspace2 a b) eqn:Hab.
  { intros H. apply IH; [cbn; lia | done]. }
  destruct x2 as [|c x3]; [done|].
  rewrite append_cons. destruct (Text.isspace3 a b c) eqn:Habc; [|done].
  intros H. apply IH; [cbn; lia | done].
Qed.

Lemma blank_app (x q : string) :
  Text.blank x = true -> Text.blank q = true -> Text.blank (x +:+ q) = true.
Proof.
  intros Hx Hq. unfold Text.blank. by rewrite (lstrip_app_blank _ _ Hx).
Qed.

Lemma rstrip_idem (s : string) : Text.rstrip (Text.rstrip s) = Text.rstrip s.
Proof.
  induction s as [|a s1 IH]; [done|].
  cbn [Text.rstrip]. destruct (Text.blank (String a s1)) eqn:Hb; [done|].
  cbn [Text.rstrip]. rewrite IH.
  destruct (Text.blank (String a (Text.rstrip s1))) eqn:Hb'; [|done].
  destruct (rstrip_split s1) as (q & Hq & Hblank).
  pose proof (blank_app _ _ Hb' Hblank) as H.
  rewrite append_cons, <- Hq in H. congruence.
Qed.

(** Stripping a stripped text changes nothing. *)
Lemma strip_idem (s : string) : Text.strip (Text.strip s) = Text.strip s.
Proof.
  unfold Text.strip.
  rewrite (lstrip_rstrip (Text.lstrip s)) by apply lstrip_heads.
  apply rstrip_idem.
Qed.

End StripTwice.

(** ** Upper case beyond ASCII *)

Section UpperFacts.

Lemma assoc_In (v u : string) (l : list (string * string)) :
  Text.assoc v l = Some u -> In (v, u) l.
Proof.
  induction l as [|[k u'] l IH]; [done|]. cbn [Text.assoc].
  destruct (String.eqb v k) eqn:E.
  - apply String.eqb_eq in E as ->. intros [= ->]. by left.
  - intros H. right. by apply IH.
Qed.


Ltac entries H :=
  unfold Text.special_upper in H; cbn [In Text.bytes] in H;
  repeat (destruct H as [H|H]; [simplify_eq|]); [..|done].

Lemma special_high2 (a b : ascii) (u : string) :
  Text.special (String a (String b EmptyString)) = Some u ->
  128 <= Text.code a /\ 128 <= Text.code b.
Proof. intros H%assoc_In. entries H; by vm_compute. Qed.

Lemma special_high3 (a b c : ascii) (u : string) :
  Text.special (String a (String b (String c EmptyString))) = Some u ->
  128 <= Text.code a /\ 128 <= Text.code b /\ 128 <= Text.code c.
Proof. intros H%assoc_In. entries H; by vm_compute. Qed.
Lemma upper_cons2 (a b : ascii) (s2 : string) :
  Text.upper (String a (String b s2)) =
  match Text.special (String a (String b EmptyString)) with
  | Some u => u +:+ Text.upper s2
  | None =>
      match s2 with
      | EmptyString => String (Text.upper_char a) (Text.upper (String b s2))
      | String c s3 =>
          match Text.special (String a (String b (String c EmptyString))) with
          | Some u => u +:+ Text.upper s3
          | None => String (Text.upper_char a) (Text.upper (String b s2))
          end
      end
  end.
Proof. by destruct s2. Qed.

(** One step of [upper]: a byte on its own, or a character of
    [special_upper]. *)
Lemma upper_step (s : string) :
  s = EmptyString
  \/ (exists a s1, s = String a s1
        /\ Text.upper s = String (Text.upper_char a) (Text.upper s1))
  \/ (exists k u s', In (k, u) Text.special_upper /\ s = k +:+ s'
        /\ Text.upper s = u +:+ Text.upper s').
Proof.
  destruct s as [|a [|b s2]]; [by left | right; left; by eexists _, _ |].
  right. rewrite upper_cons2.
  destruct (Text.special (String a (String b EmptyString))) as [u|] eqn:E2.
  { right. exists (String a (String b EmptyString)), u, s2.
    split; [by apply assoc_In | done]. }
  destruct s2 as [|c s3]; [left; by eexists _, _|].
  destruct (Text.special (String a (String b (String c EmptyString))))
    as [u|] eqn:E3.
  { right. exists (String a (String b (String c EmptyString))), u, s3.
    split; [by apply assoc_In | done]. }
  left. by eexists _, _.
Qed.

Lemma upper_low (a : ascii) (s1 : string) :
  Text.code a < 128 ->
  Text.upper (String a s1) = String (Text.upper_char a) (Text.upper s1).
Proof.
  intros Ha. destruct s1 as [|b s2]; [done|]. rewrite upper_cons2.
  destruct (Text.special (String a (String b EmptyString))) eqn:E2.
  { apply special_high2 in E2. lia. }
  destruct s2 as [|c s3]; [done|].
  destruct (Text.special (String a (String b (String c EmptyString)))) eqn:E3.
  { apply special_high3 in E3. lia. }
  done.
Qed.


Lemma upper_nil_inv (s : string) : Text.upper s = EmptyString -> s = EmptyString.
Proof.
  destruct (upper_step s) as [-> | [(a & s1 & -> & ->) | (k & u & s' & Hin & -> & ->)]];
    [done | done |].
  entries Hin; cbn [Text.bytes]; rewrite ?append_cons; done.
Qed.

Lemma startswith_app (v s : string) : Text.startswith v (v +:+ s) = true.
Proof. apply startswith_spec. by exists s. Qed.

Lemma skip_app (v s : string) : Text.skip (String.length v) (v +:+ s) = s.
Proof. induction v as [|a v IH]; [by destruct s | by rewrite append_cons]. Qed.

Lemma spells_intro (u : ascii) (token v s : string) :
  In v (Caseless.forms u) -> Caseless.spells token s = true ->
  Caseless.spells (String u token) (v +:+ s) = true.
Proof.
  intros Hv Hs. cbn [Caseless.spells]. apply existsb_exists. exists v.
  split; [done|]. by rewrite startswith_app, skip_app, Hs.
Qed.

Lemma spells_inv (u : ascii) (token s : string) :
  Caseless.spells (String u token) s = true ->
  exists v s', In v (Caseless.forms u) /\ s = v +:+ s'
               /\ Caseless.spells token s' = true.
Proof.
  cbn [Caseless.spells]. intros (v & Hv & [Hst Hsp]%andb_true_iff)%existsb_exists.
  apply startswith_spec in Hst as [s' ->]. rewrite skip_app in Hsp.
  by exists v, s'.
Qed.

Lemma capitals_head (x : ascii) (w : string) :
  capitals (String x w) = true -> ascii_head w = true.
Proof.
  cbn [capitals]. intros [_ Hw]%andb_true_iff. destruct w as [|y w]; [done|].
  cbn [capitals] in Hw. apply andb_true_iff in Hw as [Hy _].
  unfold capital in Hy. cbn [ascii_head]. apply N.ltb_lt.
  repeat (apply andb_true_iff in Hy as [Hy ?]). apply N.leb_le in H1. lia.
Qed.

Lemma form_plain (x a : ascii) :
  a = x \/ a = Text.lower_char x -> In (String a EmptyString) (Caseless.forms x).
Proof. intros [-> | ->]; apply in_or_app; left; cbn [In]; tauto. Qed.

(** What [upper] turns into an upper-case letter followed by ASCII. *)
Lemma upper_letter (x : ascii) (w s : string) :
  capital x = true -> ascii_head w = true ->
  Text.upper s = String x w ->
  exists v s', s = v +:+ s' /\ In v (Caseless.forms x) /\ Text.upper s' = w.
Proof.
  intros Hx Hw.
  destruct (upper_step s) as [-> | [(a & s1 & -> & ->) | (k & u & s' & Hin & -> & ->)]].
  - done.
  - intros [= Ha Hs]. exists (String a EmptyString), s1.
    split; [done|]. split; [|done]. apply form_plain.
    apply upper_char_letter; [|done].
    unfold capital in Hx. repeat (apply andb_true_iff in Hx as [Hx ?]).
    apply N.leb_le in Hx. apply N.leb_le in H1. lia.
  - entries Hin; cbn [Text.bytes]; rewrite ?append_cons; intros [= <- <-];
      try (by vm_compute in Hx); try (by vm_compute in Hw).
    exists (Text.bytes [196; 177]), s'. split; [done|]. split; [|done].
    apply in_or_app. right. by left.
Qed.

(** The texts whose upper case is a given word of upper-case letters. *)
Lemma upper_spells (token s : string) :
  capitals token = true ->
  Text.upper s = token <-> Caseless.spells token s = true.
Proof.
  revert s. induction token as [|x token IH]; intros s Hc.
  - split.
    + by intros ->%upper_nil_inv.
    + by destruct s.
  - pose proof (capitals_head _ _ Hc) as Hw.
    cbn [capitals] in Hc. apply andb_true_iff in Hc as [Hx Hc]. split.
    + intros (v & s' & -> & Hv & Hs)%upper_letter; [|done..].
      apply spells_intro; [done|]. by apply IH.
    + intros (v & s' & Hv & -> & Hs)%spells_inv.
      apply IH in Hs; [|done]. subst token.
      apply in_app_or in Hv as [Hv | Hv].
      * assert (Hlow : forall a, a = x \/ a = Text.lower_char x ->
                  Text.upper (String a s') = String x (Text.upper s')).
        { intros a Ha. unfold capital in Hx.
          repeat (apply andb_true_iff in Hx as [Hx ?]).
          apply N.leb_le in Hx. apply N.leb_le in H1.
          rewrite upper_low.
          - f_equal. destruct Ha as [-> | ->].
            + unfold Text.upper_char.
              replace (97 <=? Text.code x) with false; [done|].
              symmetry. apply N.leb_gt. lia.
            + apply upper_char_of_letter. lia.
          - destruct Ha as [-> | ->]; [lia|].
            rewrite code_lower_char.
            destruct ((65 <=? Text.code x) && (Text.code x <=? 90)); lia. }
        cbn [In] in Hv. destruct Hv as [<- | [<- | []]];
          rewrite append_cons; apply Hlow; tauto.
      * destruct (Text.code x =? 73) eqn:E73.
        { apply N.eqb_eq in E73. destruct Hv as [<- | []].
          assert (x = ascii_of_N 73) as -> by (apply code_inj; by rewrite E73).
          done. }
        destruct (Text.code x =? 83) eqn:E83; [|done].
        unfold capital in Hx. rewrite E83 in Hx.
        by rewrite andb_false_r in Hx.
Qed.

Lemma upper_cheating (s : string) :
  Text.upper s = "CHEATING" <-> Caseless.spells "CHEATING" s = true.
Proof. by apply upper_spells. Qed.

(** *** Matching texts have the same upper case *)

Lemma same_char_side (a b : ascii) :
  Caseless.same_char a b = true ->
  (128 <= Text.code a /\ b = a) \/ (Text.code a < 128 /\ Text.code b < 128).
Proof.
  intros H. destruct (N.le_gt_cases 128 (Text.code a)) as [Ha | Ha].
  - left. split; [done|]. by apply same_char_high.
  - right. split; [lia|]. by apply (same_char_low a).
Qed.

Lemma special_none2 (a b : ascii) :
  Text.code a < 128 \/ Text.code b < 128 ->
  Text.special (String a (String b EmptyString)) = None.
Proof.
  intros H. destruct (Text.special _) eqn:E; [|done].
  apply special_high2 in E. lia.
Qed.

Lemma special_none3 (a b c : ascii) :
  Text.code a < 128 \/ Text.code b < 128 \/ Text.code c < 128 ->
  Text.special (String a (String b (String c EmptyString))) = None.
Proof.
  intros H. destruct (Text.special _) eqn:E; [|done].
  apply special_high3 in E. lia.
Qed.

Lemma special_matches2 (a b a' b' : ascii) :
  Caseless.same_char a a' = true -> Caseless.same_char b b' = true ->
  Text.special (String a (String b EmptyString))
  = Text.special (String a' (String b' EmptyString)).
Proof.
  intros [[_ ->] | [Ha Ha']]%same_char_side [[_ ->] | [Hb Hb']]%same_char_side;
    [done | rewrite !special_none2 by lia; done..].
Qed.

Lemma special_matches3 (a b c a' b' c' : ascii) :
  Caseless.same_char a a' = true -> Caseless.same_char b b' = true ->
  Caseless.same_char c c' = true ->
  Text.special (String a (String b (String c EmptyString)))
  = Text.special (String a' (String b' (String c' EmptyString))).
Proof.
  intros [[_ ->] | [Ha Ha']]%same_char_side [[_ ->] | [Hb Hb']]%same_char_side
         [[_ ->] | [Hc Hc']]%same_char_side;
    [done | rewrite !special_none3 by lia; done..].
Qed.

Lemma matches_upper (s t : string) :
  Caseless.matches s t = true -> Text.upper s = Text.upper t.
Proof.
  revert t. induction s as [s IH] using string_len_ind. intros t.
  destruct s as [|a [|b s2]], t as [|a' [|b' t2]]; try done.
  - cbn [Caseless.matches]. rewrite andb_true_r.
    intros H%same_char_upper. cbn [Text.upper]. by rewrite H.
  - cbn [Caseless.matches]. by rewrite andb_false_r.
  - cbn [Caseless.matches]. by rewrite andb_false_r.
  - cbn [Caseless.matches].
    intros [Ha [Hb Hm]%andb_true_iff]%andb_true_iff.
    assert (Hplain : String (Text.upper_char a) (Text.upper (String b s2))
                     = String (Text.upper_char a') (Text.upper (String b' t2))).
    { f_equal; [by apply same_char_upper|]. apply IH; [cbn; lia|].
      cbn [Caseless.matches]. by rewrite Hb, Hm. }
    rewrite !upper_cons2, (special_matches2 a b a' b') by done.
    destruct (Text.special (String a' (String b' EmptyString))).
    { f_equal. apply IH; [cbn; lia | done]. }
    destruct s2 as [|c s3], t2 as [|c' t3];
      cbn [Caseless.matches] in Hm; try done.
    apply andb_true_iff in Hm as [Hc Hm].
    rewrite (special_matches3 a b c a' b' c') by done.
    destruct (Text.special (String a' (String b' (String c' EmptyString)))).
    { f_equal. apply IH; [cbn; lia | done]. }
    done.
Qed.

Lemma upper_matches_ascii (s t : string) :
  ascii_only s = true -> ascii_only t = true ->
  Text.upper s = Text.upper t <-> Caseless.matches s t = true.
Proof.
  intros Hs Ht. split; [|apply matches_upper].
  revert t Hs Ht. induction s as [|a s IH]; intros [|b t] Hs Ht; try done.
  - cbn [ascii_only] in Ht. apply andb_true_iff in Ht as [Hb%N.ltb_lt _].
    by rewrite upper_low.
  - cbn [ascii_only] in Hs. apply andb_true_iff in Hs as [Ha%N.ltb_lt _].
    by rewrite upper_low.
  - cbn [ascii_only] in Hs, Ht.
    apply andb_true_iff in Hs as [Ha%N.ltb_lt Hs].
    apply andb_true_iff in Ht as [Hb%N.ltb_lt Ht].
    rewrite !upper_low by done. intros [= Hab Hst].
    cbn [Caseless.matches]. apply andb_true_iff. split.
    + by apply same_char_upper.
    + by apply IH.
Qed.

End UpperFacts.

(** ** The token and its spellings *)

Lemma capital_letter (x : ascii) : capital x = true -> 65 <= Text.code x <= 90.
Proof.
  unfold capital. intros H. repeat (apply andb_true_iff in H as [H ?]).
  apply N.leb_le in H. apply N.leb_le in H2. lia.
Qed.

Lemma capitals_ascii (t : string) : capitals t = true -> ascii_only t = true.
Proof.
  induction t as [|x t IH]; [done|]. cbn [capitals ascii_only].
  intros [Hx%capital_letter Ht]%andb_true_iff. rewrite IH, andb_true_r by done.
  apply N.ltb_lt. lia.
Qed.

Lemma capitals_upper (t : string) : capitals t = true -> Text.upper t = t.
Proof.
  induction t as [|x t IH]; [done|]. cbn [capitals].
  intros [Hx%capital_letter Ht]%andb_true_iff.
  rewrite upper_low, IH by (done || lia). f_equal.
  by apply upper_char_of_letter.
Qed.

(** On a text of ASCII characters, spelling a word of upper-case letters is
    matching it position by position up to case. *)
Lemma spells_matches_ascii (token s : string) :
  capitals token = true -> ascii_only s = true ->
  Caseless.spells token s = Caseless.matches s token.
Proof.
  intros Ht Hs. apply eq_true_iff_eq.
  rewrite <- upper_spells by done.
  rewrite <- upper_matches_ascii by (done || by apply capitals_ascii).
  by rewrite (capitals_upper token).
Qed.

(** ** Running the script step by step *)

Lemma bind_run {A B} (c : script A) (f : A -> script B) (w : world) :
  (c ≫= f) w = match c w with
               | (Value a, w') => f a w'
               | (Stopped, w') => (Stopped, w')
               | (Raised e, w') => (Raised e, w')
               end.
Proof. reflexivity. Qed.

Lemma ret_run {A} (a : A) (w : world) : (mret a : script A) w = (Value a, w).
Proof. reflexivity. Qed.

Arguments cheating_params : simpl never.
Arguments guesser_params : simpl never.
Arguments verify_params : simpl never.
Arguments generate_params : simpl never.
Arguments is_guesser_call : simpl never.
Arguments is_verifier_call : simpl never.
Arguments is_generate_call : simpl never.
Arguments Text.truthy : simpl never.
Arguments Text.strip : simpl never.

Lemma truthy_error (e : string) :
  Text.truthy (Some ("OpenAI API call failed: " +:+ e)) = true.
Proof. reflexivity. Qed.

Lemma truthy_none : Text.truthy None = false.
Proof. reflexivity. Qed.

Lemma guesser_call_guesser (d : string) :
  is_guesser_call (guesser_params d) = true.
Proof. reflexivity. Qed.

Lemma guesser_call_cheating (c d : string) :
  is_guesser_call (cheating_params c d) = false.
Proof. reflexivity. Qed.

Lemma guesser_call_verify (c g : string) :
  is_guesser_call (verify_params c g) = false.
Proof. reflexivity. Qed.

Lemma guesser_call_generate : is_guesser_call generate_params = false.
Proof. reflexivity. Qed.

Ltac prim :=
  unfold load_custom_css, st_markdown, st_error, st_success, st_button,
    st_form, st_stop, render, session_contains, session_get, session_set,
    store_concept_locally, message_content, chat_completions_create.

Ltac calls :=
  unfold on_submit, generate_random_concept, check_if_cheating, verify_guess,
    describe_concept, safe_chat_completion_create.

(** Run the script as far as the hypotheses decide its tests. *)
Ltac run :=
  repeat first
    [ rewrite bind_run
    | rewrite ret_run
    | rewrite truthy_error
    | rewrite truthy_none
    | rewrite guesser_call_guesser
    | rewrite guesser_call_cheating
    | rewrite guesser_call_verify
    | rewrite guesser_call_generate
    | progress prim
    | progress calls
    | progress cbn
    | match goal with H : _ !! _ = _ |- _ => rewrite H end
    | match goal with H : _ = Completed _ |- _ => rewrite H end
    | match goal with H : _ = Failed _ |- _ => rewrite H end
    | match goal with H : String.eqb _ _ = _ |- _ => rewrite H end
    | match goal with H : Text.contains _ _ = _ |- _ => rewrite H end
    | rewrite lookup_insert_eq
    | rewrite lookup_insert_ne by done ].

(** Split on the next reply of the provider the script is waiting for. *)
Ltac reply :=
  match goal with
  | |- context [match ?provider ?n ?p with Completed _ => _ | Failed _ => _ end] =>
      destruct (provider n p) eqn:?
  end.

Section Calls.

Variable provider : nat -> params -> reply.

Lemma safe_chat_completion_create_run (p : params) (w : world) :
  safe_chat_completion_create provider p w =
  (Value match provider (length (requests w)) p with
         | Completed text => (Some (Response text), None)
         | Failed e => (None, Some (api_error e))
         end, sent p w).
Proof.
  unfold safe_chat_completion_create. rewrite bind_run. cbn.
  by destruct (provider _ _).
Qed.

Lemma generate_random_concept_run (w : world) :
  generate_random_concept provider w =
  match provider (length (requests w)) generate_params with
  | Completed text => (Value (Text.strip text), sent generate_params w)
  | Failed e =>
      (Value concept_placeholder, shown (Error (api_error e)) (sent generate_params w))
  end.
Proof. run. by destruct (provider _ _). Qed.

Lemma check_if_cheating_run (concept description : string) (w : world) :
  check_if_cheating provider concept description w =
  let p := cheating_params concept description in
  match provider (length (requests w)) p with
  | Completed text =>
      (Value (String.eqb (Text.upper (Text.strip text)) "CHEATING"), sent p w)
  | Failed e => (Value false, shown (Error (api_error e)) (sent p w))
  end.
Proof. run. by destruct (provider _ _). Qed.

Lemma verify_guess_run (concept guess : string) (w : world) :
  verify_guess provider concept guess w =
  let p := verify_params concept guess in
  match provider (length (requests w)) p with
  | Completed text =>
      (Value (Text.contains "yes" (Text.lower (Text.strip text))), sent p w)
  | Failed e => (Value false, shown (Error (api_error e)) (sent p w))
  end.
Proof. run. by destruct (provider _ _). Qed.

End Calls.

(** ** The parsers of the provider's answer *)



(** C4. When the provider answers the verification request, the verifier
    returns true exactly when the answer contains yes as a segment up to
    letter case; "Yes, definitely" gives true, "No" gives false and
    "yesterday" gives true. *)
Theorem verify_guess_yes_substring
    (provider : nat -> params -> reply) (concept guess : string)
    (w : world) (text : string) :
  provider (length (requests w)) (verify_params concept guess)
    = Completed text ->
  let verdict := (verify_guess provider concept guess w).1 in
  (verdict = Value true <-> Caseless.occurs "yes" text)
  /\ (verdict = Value false <-> ~ Caseless.occurs "yes" text)
  /\ (Caseless.occurs "yes" (Text.strip text) <-> Caseless.occurs "yes" text)
  /\ (text = "Yes, definitely" -> verdict = Value true)
  /\ (text = "No" -> verdict = Value false)
  /\ (text = "yesterday" -> verdict = Value true).
Proof.
  intros Hp verdict. subst verdict.
  rewrite verify_guess_run. cbn zeta. rewrite Hp. cbn [fst].
  assert (Hocc : forall t, Text.contains "yes" (Text.lower t) = true
                           <-> Caseless.occurs "yes" t).
  { intros t. by apply contains_lower_occurs. }
  assert (Hstrip : Text.contains "yes" (Text.lower (Text.strip text))
                   = Text.contains "yes" (Text.lower text)).
  { by apply contains_lower_strip. }
  repeat split.
  - intros [= H]. apply Hocc. by rewrite <- Hstrip.
  - intros H%Hocc. rewrite Hstrip. by rewrite H.
  - intros [= H] Ho%Hocc. rewrite Hstrip in H. congruence.
  - intros H. rewrite Hstrip.
    destruct (Text.contains "yes" (Text.lower text)) eqn:E; [|done].
    by apply Hocc in E.
  - intros H%Hocc. apply Hocc. by rewrite <- Hstrip.
  - intros H%Hocc. apply Hocc. by rewrite <- Hstrip in H.
  - by intros ->.
  - by intros ->.
  - by intros ->.
Qed.

Lemma verify_guess_yes_substring_witness :
  let verdict :=
    (verify_guess (fun _ _ => Completed "Yes, definitely") "vulkaan" "volcano"
       (fresh_run ∅ None)).1 in
  verdict = Value true <-> Caseless.occurs "yes" "Yes, definitely".
Proof.
  apply (verify_guess_yes_substring (fun _ _ => Completed "Yes, definitely")
           "vulkaan" "volcano" (fresh_run ∅ None) "Yes, definitely").
  reflexivity.
Defined.

(** ** Swapping roles *)

(** C7. On both RoleMode variants one swap gives the other variant and two
    swaps give the variant back. *)
Theorem swap_roles_involution (m : string) :
  is_role_mode m ->
  swap_roles (swap_roles m) = m
  /\ swap_roles m <> m
  /\ is_role_mode (swap_roles m).
Proof.
  intros [-> | ->]; repeat split; try done; unfold is_role_mode; cbn; auto.
Qed.

Lemma swap_roles_involution_witness :
  swap_roles (swap_roles "LLM_DESCRIBES") = "LLM_DESCRIBES"
  /\ swap_roles "LLM_DESCRIBES" <> "LLM_DESCRIBES"
  /\ is_role_mode (swap_roles "LLM_DESCRIBES").
Proof.
  apply (swap_roles_involution "LLM_DESCRIBES"). right. reflexivity.
Defined.

(** C10. [swap_roles] answers on every string with one of the two
    variants; every input other than USER_DESCRIBES, valid or not, goes to
    USER_DESCRIBES, so one press of Swap Roles repairs a session whose
    role mode is out of range. *)
Theorem swap_roles_total (s : string) :
  is_role_mode (swap_roles s)
  /\ (s <> "USER_DESCRIBES" -> swap_roles s = "USER_DESCRIBES")
  /\ (s <> "USER_DESCRIBES" ->
      forall (provider : nat -> params -> reply) (ui : widgets)
             (m : gmap string string) (f : option string) (c : string),
        m !! "concept" = Some c -> m !! "role_mode" = Some s ->
        play_again ui = false -> swap ui = true ->
        exists w',
          run_app provider ui (fresh_run m f) = (Stopped, w')
          /\ game_state w' = (Some c, Some "USER_DESCRIBES")).
Proof.
  assert (Hne : s <> "USER_DESCRIBES" -> String.eqb s "USER_DESCRIBES" = false).
  { intros H. by apply String.eqb_neq. }
  repeat split.
  - unfold is_role_mode, swap_roles. destruct (String.eqb _ _); auto.
  - intros H%Hne. unfold swap_roles. by rewrite H.
  - intros H%Hne provider [pa d sub sw] m f c Hc Hr Hpa Hsw.
    cbn in Hpa, Hsw. subst pa sw.
    unfold run_app, fresh_run. run. unfold swap_roles, game_state. run.
    eexists. split; [reflexivity|]. run. reflexivity.
Qed.

Lemma swap_roles_total_witness :
  "describer" <> "USER_DESCRIBES" /\ swap_roles "describer" = "USER_DESCRIBES".
Proof.
  split; [discriminate|].
  apply (swap_roles_total "describer"). discriminate.
Defined.

(** ** A submitted description *)

Lemma card_is_not_a_guess (c : string) : ~ shows_guess (Markdown (concept_card c)).
Proof. by intros [g [=]]. Qed.

(** The detector says true only when the provider answered CHEATING. *)
Lemma check_if_cheating_true
    (provider : nat -> params -> reply) (c d : string) (w : world) :
  (check_if_cheating provider c d w).1 = Value true ->
  exists text,
    provider (length (requests w)) (cheating_params c d) = Completed text
    /\ String.eqb (Text.upper (Text.strip text)) "CHEATING" = true.
Proof.
  rewrite check_if_cheating_run. cbn zeta.
  destruct (provider _ _) as [text|e]; cbn; [|done].
  intros [= H]. eauto.
Qed.

(** C5. A description the Cheat Detector classifies as cheating produces
    no Guess and no Verdict: the page carries the cheating notice, the
    only request of the turn is the detector's, and neither the Guesser
    nor the Verifier is called. *)
Theorem cheating_description_stops_turn
    (provider : nat -> params -> reply) (ui : widgets)
    (m : gmap string string) (f : option string) (c : string) :
  m !! "concept" = Some c ->
  m !! "role_mode" = Some "USER_DESCRIBES" ->
  play_again ui = false ->
  submit ui = true ->
  (check_if_cheating provider c (user_desc ui) (fresh_run m f)).1 = Value true ->
  let w' := (run_app provider ui (fresh_run m f)).2 in
  Error cheating_notice ∈ page w'
  /\ Forall (fun e => ~ shows_guess e /\ ~ shows_verdict e) (page w')
  /\ requests w' = [cheating_params c (user_desc ui)]
  /\ Forall (fun p => is_guesser_call p = false /\ is_verifier_call p = false)
       (requests w')
  /\ session_state w' !! "concept" = Some c.
Proof.
  destruct ui as [pa d sub sw]. cbn [play_again submit user_desc].
  intros Hc Hr -> -> (text & Hp & Hv)%check_if_cheating_true.
  cbn in Hp. unfold run_app, fresh_run.
  destruct sw; run.
  all: repeat split; try reflexivity.
  all: try (apply list_elem_of_In; cbn; tauto).
  all: repeat constructor; try done; try (by intros [g [=]]);
    try (by intros [[=] | [=]]); try apply card_is_not_a_guess.
Qed.

Lemma cheating_description_stops_turn_witness :
  (check_if_cheating (scripted [Completed "CHEATING"]) "vulkaan"
     "It's called vulkaan"
     (fresh_run (session_of "vulkaan" "USER_DESCRIBES") None)).1 = Value true
  /\ requests
       (run_app (scripted [Completed "CHEATING"])
          (Widgets false "It's called vulkaan" true false)
          (fresh_run (session_of "vulkaan" "USER_DESCRIBES") None)).2
     = [cheating_params "vulkaan" "It's called vulkaan"].
Proof.
  split; [reflexivity|].
  apply (cheating_description_stops_turn (scripted [Completed "CHEATING"])
           (Widgets false "It's called vulkaan" true false)
           (session_of "vulkaan" "USER_DESCRIBES") None "vulkaan");
    reflexivity.
Defined.

(** Explore every branch the provider's replies and the tests leave open. *)
Ltac branches :=
  repeat (first
            [ reply
            | match goal with
              | |- context [if ?b then _ else _] => destruct b eqn:?
              end ];
          run).

(** ** Failure of the provider *)

(** C1, as stated, fails: with the provider down, Play Again replaces the
    concept by the placeholder and resets the role mode. *)
Lemma play_again_outage_changes_state :
  oracle_failed outage
    (run_app outage (Widgets true "" false false)
       (fresh_run (session_of "vulkaan" "LLM_DESCRIBES") None)).2
  /\ game_state (fresh_run (session_of "vulkaan" "LLM_DESCRIBES") None)
     = (Some "vulkaan", Some "LLM_DESCRIBES")
  /\ game_state
       (run_app outage (Widgets true "" false false)
          (fresh_run (session_of "vulkaan" "LLM_DESCRIBES") None)).2
     = (Some "Error! Could not generate concept.", Some "USER_DESCRIBES")
  /\ game_state
       (run_app outage (Widgets true "" false false)
          (fresh_run (session_of "vulkaan" "LLM_DESCRIBES") None)).2
     <> game_state (fresh_run (session_of "vulkaan" "LLM_DESCRIBES") None).
Proof.
  repeat split; try reflexivity.
  - exists 0%nat, generate_params, "timeout". split; reflexivity.
  - vm_compute. discriminate.
Qed.

(** C1, amended. When a provider call fails while a description is being
    handled (cheat detection, guessing or verification), the Concept and
    the RoleMode after the run are the ones from before. *)
Theorem submit_failure_keeps_state
    (provider : nat -> params -> reply) (ui : widgets)
    (m : gmap string string) (f : option string) (c r : string) :
  m !! "concept" = Some c ->
  m !! "role_mode" = Some r ->
  play_again ui = false ->
  swap ui = false ->
  oracle_failed provider (run_app provider ui (fresh_run m f)).2 ->
  game_state (run_app provider ui (fresh_run m f)).2
  = game_state (fresh_run m f).
Proof.
  destruct ui as [pa d sub sw]. cbn [play_again swap].
  intros Hc Hr -> -> _.
  unfold run_app, fresh_run, game_state. run. branches; by run.
Qed.

Lemma submit_failure_keeps_state_witness :
  oracle_failed (scripted [Completed "NOT CHEATING"])
    (run_app (scripted [Completed "NOT CHEATING"])
       (Widgets false "A mountain that can erupt" true false)
       (fresh_run (session_of "vulkaan" "USER_DESCRIBES") None)).2
  /\ game_state
       (run_app (scripted [Completed "NOT CHEATING"])
          (Widgets false "A mountain that can erupt" true false)
          (fresh_run (session_of "vulkaan" "USER_DESCRIBES") None)).2
     = game_state (fresh_run (session_of "vulkaan" "USER_DESCRIBES") None).
Proof.
  assert (H : oracle_failed (scripted [Completed "NOT CHEATING"])
    (run_app (scripted [Completed "NOT CHEATING"])
       (Widgets false "A mountain that can erupt" true false)
       (fresh_run (session_of "vulkaan" "USER_DESCRIBES") None)).2).
  { exists 1%nat, (guesser_params "A mountain that can erupt"), "no answer".
    split; reflexivity. }
  split; [exact H|].
  apply (submit_failure_keeps_state (scripted [Completed "NOT CHEATING"])
           (Widgets false "A mountain that can erupt" true false)
           (session_of "vulkaan" "USER_DESCRIBES") None
           "vulkaan" "USER_DESCRIBES");
    try reflexivity.
  exact H.
Defined.

(** C2, as stated, fails: the cheat-detection call fails, yet the turn goes
    on and the page shows a Guess and a Verdict. *)
Lemma detector_failure_turn_proceeds :
  scripted [Failed "timeout"; Completed "volcano"; Completed "yes"] 0%nat
    (cheating_params "vulkaan" "A mountain that can erupt") = Failed "timeout"
  /\ page
       (run_app (scripted [Failed "timeout"; Completed "volcano"; Completed "yes"])
          (Widgets false "A mountain that can erupt" true false)
          (fresh_run (session_of "vulkaan" "USER_DESCRIBES") None)).2
     = [ StyleSheet;
         Markdown "<div class='header'>Guess the Concept</div>";
         Button "Play Again";
         Markdown (concept_card "vulkaan");
         Form "guess_form";
         KeyScript;
         Error "OpenAI API call failed: timeout";
         Markdown (guess_card "volcano");
         Success guess_correct;
         Button "Swap Roles" ]
  /\ requests
       (run_app (scripted [Failed "timeout"; Completed "volcano"; Completed "yes"])
          (Widgets false "A mountain that can erupt" true false)
          (fresh_run (session_of "vulkaan" "USER_DESCRIBES") None)).2
     = [ cheating_params "vulkaan" "A mountain that can erupt";
         guesser_params "A mountain that can erupt";
         verify_params "vulkaan" "volcano" ].
Proof. repeat split; reflexivity. Qed.

(** C2, amended. When the cheat-detection call fails, its error is put on
    the page and the description counts as not cheating: the Guesser is
    asked next, and when it answers the guess is shown and verified, and
    the Verifier's answer decides the verdict shown. *)
Theorem detector_failure_fails_open
    (provider : nat -> params -> reply) (ui : widgets)
    (m : gmap string string) (f : option string) (c e : string) :
  m !! "concept" = Some c ->
  m !! "role_mode" = Some "USER_DESCRIBES" ->
  play_again ui = false ->
  submit ui = true ->
  provider 0%nat (cheating_params c (user_desc ui)) = Failed e ->
  let w' := (run_app provider ui (fresh_run m f)).2 in
  Error (api_error e) ∈ page w'
  /\ (Error cheating_notice ∉ page w')
  /\ requests w' !! 1%nat = Some (guesser_params (user_desc ui))
  /\ forall g,
       provider 1%nat (guesser_params (user_desc ui)) = Completed g ->
       Markdown (guess_card (Text.strip g)) ∈ page w'
       /\ requests w' !! 2%nat = Some (verify_params c (Text.strip g))
       /\ forall v,
            provider 2%nat (verify_params c (Text.strip g)) = Completed v ->
            (if Text.contains "yes" (Text.lower (Text.strip v))
             then Success guess_correct else Error guess_wrong) ∈ page w'.
Proof.
  destruct ui as [pa d sub sw]. cbn [play_again submit user_desc].
  intros Hc Hr -> -> Hp. cbn in Hp.
  unfold run_app, fresh_run, api_error. run.
  split; [|split; [|split]].
  - branches; apply list_elem_of_In; cbn; tauto.
  - branches; rewrite list_elem_of_In; cbn;
      intros H; repeat (destruct H as [H|H]; [by inversion H|]); done.
  - branches; reflexivity.
  - intros g Hg. cbn in Hg. run. split; [|split].
    + branches; apply list_elem_of_In; cbn; tauto.
    + branches; reflexivity.
    + intros v Hv. cbn in Hv. run. branches; apply list_elem_of_In; cbn; tauto.
Qed.

Lemma detector_failure_fails_open_witness :
  outage 0%nat (cheating_params "vulkaan" "A mountain that can erupt")
    = Failed "timeout"
  /\ Error (api_error "timeout") ∈
       page (run_app outage (Widgets false "A mountain that can erupt" true false)
               (fresh_run (session_of "vulkaan" "USER_DESCRIBES") None)).2.
Proof.
  split; [reflexivity|].
  apply (detector_failure_fails_open outage
           (Widgets false "A mountain that can erupt" true false)
           (session_of "vulkaan" "USER_DESCRIBES") None "vulkaan" "timeout");
    reflexivity.
Defined.

(** ** Play Again *)



(** ** What the Guesser is told *)

(** The Guesser's requests of a run that handles a description: none when
    the detector said cheating, else the one built from the description. *)
Lemma guesser_requests_of_run
    (provider : nat -> params -> reply) (ui : widgets)
    (m : gmap string string) (f : option string) (c : string) :
  m !! "concept" = Some c ->
  m !! "role_mode" = Some "USER_DESCRIBES" ->
  play_again ui = false ->
  submit ui = true ->
  List.filter is_guesser_call (requests (run_app provider ui (fresh_run m f)).2)
  = match (check_if_cheating provider c (user_desc ui) (fresh_run m f)).1 with
    | Value true => []
    | _ => [guesser_params (user_desc ui)]
    end.
Proof.
  destruct ui as [pa d sub sw]. cbn [play_again submit user_desc].
  intros Hc Hr -> ->.
  rewrite check_if_cheating_run. unfold run_app, fresh_run. run.
  branches; reflexivity.
Qed.

(** C8. In USER_DESCRIBES mode the request sent to the Guesser is built
    from the submitted description alone: two runs over sessions holding
    any two concepts, with any two providers, send the Guesser the same
    request whenever they reach it, and they reach it whenever the
    detector does not say cheating. *)
Theorem guesser_request_ignores_concept
    (provider1 provider2 : nat -> params -> reply) (ui : widgets)
    (m1 m2 : gmap string string) (f1 f2 : option string) (c1 c2 : string) :
  m1 !! "concept" = Some c1 ->
  m2 !! "concept" = Some c2 ->
  m1 !! "role_mode" = Some "USER_DESCRIBES" ->
  m2 !! "role_mode" = Some "USER_DESCRIBES" ->
  play_again ui = false ->
  submit ui = true ->
  let sent1 :=
    List.filter is_guesser_call (requests (run_app provider1 ui (fresh_run m1 f1)).2) in
  let sent2 :=
    List.filter is_guesser_call (requests (run_app provider2 ui (fresh_run m2 f2)).2) in
  (forall p1 p2, p1 ∈ sent1 -> p2 ∈ sent2 -> p1 = p2)
  /\ (forall p, p ∈ sent1 ++ sent2 -> p = guesser_params (user_desc ui))
  /\ user_prompt (guesser_params (user_desc ui))
     = Some ("Guess this concept based on: " +:+ user_desc ui)
  /\ ((check_if_cheating provider1 c1 (user_desc ui) (fresh_run m1 f1)).1 = Value false ->
      sent1 = [guesser_params (user_desc ui)])
  /\ ((check_if_cheating provider2 c2 (user_desc ui) (fresh_run m2 f2)).1 = Value false ->
      sent2 = [guesser_params (user_desc ui)]).
Proof.
  intros Hc1 Hc2 Hr1 Hr2 Hpa Hsub sent1 sent2. subst sent1 sent2.
  rewrite (guesser_requests_of_run provider1 ui m1 f1 c1) by done.
  rewrite (guesser_requests_of_run provider2 ui m2 f2 c2) by done.
  assert (Hone : forall (o : outcome bool) p,
             p ∈ match o with
                 | Value true => []
                 | _ => [guesser_params (user_desc ui)]
                 end -> p = guesser_params (user_desc ui)).
  { intros [[]| |?] p Hp; try by apply elem_of_nil in Hp.
    all: by apply list_elem_of_singleton in Hp. }
  repeat split.
  - intros p1 p2 H1%Hone H2%Hone. congruence.
  - intros p [H|H]%elem_of_app; eauto.
  - by intros ->.
  - by intros ->.
Qed.

Lemma guesser_request_ignores_concept_witness :
  List.filter is_guesser_call
    (requests
       (run_app (scripted [Completed "NOT CHEATING"; Completed "volcano"; Completed "yes"])
          (Widgets false "A mountain that can erupt" true false)
          (fresh_run (session_of "vulkaan" "USER_DESCRIBES") None)).2)
  = [guesser_params "A mountain that can erupt"]
  /\ List.filter is_guesser_call
       (requests
          (run_app (scripted [Completed "maybe"; Failed "busy"])
             (Widgets false "A mountain that can erupt" true false)
             (fresh_run (session_of "berg" "USER_DESCRIBES") None)).2)
     = [guesser_params "A mountain that can erupt"].
Proof.
  pose proof (guesser_request_ignores_concept
    (scripted [Completed "NOT CHEATING"; Completed "volcano"; Completed "yes"])
    (scripted [Completed "maybe"; Failed "busy"])
    (Widgets false "A mountain that can erupt" true false)
    (session_of "vulkaan" "USER_DESCRIBES") (session_of "berg" "USER_DESCRIBES")
    None None "vulkaan" "berg"
    eq_refl eq_refl eq_refl eq_refl eq_refl eq_refl) as (_ & _ & _ & H1 & H2).
  split; [apply H1 | apply H2]; reflexivity.
Defined.

(** ** The placeholder concept *)

(** C9. When the generation request fails, [generate_random_concept]
    returns the placeholder text, and the session takes it as the current
    Concept, in the session state and in the concept file, both on first
    entry and on Play Again, where it replaces the previous Concept. *)
Theorem generation_failure_stores_placeholder
    (provider : nat -> params -> reply)
    (m : gmap string string) (f : option string) (e : string) :
  provider 0%nat generate_params = Failed e ->
  (generate_random_concept provider (fresh_run m f)).1
    = Value "Error! Could not generate concept."
  /\ (forall ui,
        m !! "concept" = None -> play_again ui = false ->
        let w' := (run_app provider ui (fresh_run m f)).2 in
        session_state w' !! "concept" = Some "Error! Could not generate concept."
        /\ current_concept_txt w' = Some "Error! Could not generate concept."
        /\ Error (api_error e) ∈ page w')
  /\ (forall ui c,
        m !! "concept" = Some c -> play_again ui = true ->
        let w' := (run_app provider ui (fresh_run m f)).2 in
        session_state w' !! "concept" = Some "Error! Could not generate concept."
        /\ current_concept_txt w' = Some "Error! Could not generate concept."
        /\ Error (api_error e) ∈ page w').
Proof.
  intros Hp. split; [|split].
  - rewrite generate_random_concept_run. cbn. by rewrite Hp.
  - intros [pa d sub sw] Hc Hpa. cbn in Hpa. subst pa.
    unfold run_app, fresh_run, api_error. cbn in Hp.
    destruct (m !! "role_mode") as [r|] eqn:Hr; run; branches;
      (split; [reflexivity | split; [reflexivity|]]);
      apply list_elem_of_In; cbn; tauto.
  - intros [pa d sub sw] c Hc Hpa. cbn in Hpa. subst pa.
    unfold run_app, fresh_run, api_error. cbn in Hp.
    destruct (m !! "role_mode") as [r|] eqn:Hr; run;
      (split; [reflexivity | split; [reflexivity|]]);
      apply list_elem_of_In; cbn; tauto.
Qed.

Lemma generation_failure_stores_placeholder_witness :
  outage 0%nat generate_params = Failed "timeout"
  /\ (generate_random_concept outage (fresh_run ∅ None)).1
     = Value "Error! Could not generate concept.".
Proof.
  split; [reflexivity|].
  apply (generation_failure_stores_placeholder outage ∅ None "timeout").
  reflexivity.
Defined.

(** * Further properties of the script

    The remaining statements walk through every branch of a run at once:
    the run is unrolled by computation, the lookups in the session are
    settled by rewriting, and each test left open is split. *)

Lemma ends_intro {A} (P : outcome A * world -> Prop) (r : outcome A * world) :
  ends r (fun o w => P (o, w)) -> P r.
Proof. unfold ends. by destruct r. Qed.

Lemma is_some_some {A} (x : A) : bool_decide (is_Some (Some x)) = true.
Proof. reflexivity. Qed.

Lemma is_some_none {A} : bool_decide (is_Some (@None A)) = false.
Proof. reflexivity. Qed.

Ltac unroll :=
  lazy beta iota zeta delta
    [run_app on_submit generate_random_concept check_if_cheating verify_guess
     describe_concept
     safe_chat_completion_create chat_completions_create load_custom_css
     st_markdown st_error st_success st_button st_form st_stop render
     session_contains session_get session_set store_concept_locally
     message_content mbind script_bind mret script_ret fresh_run
     session_state current_concept_txt page requests fst snd negb
     default from_option id length app
     bool_decide decide is_Some_dec Text.truthy String.append
     play_again user_desc submit swap choice_content].

Ltac settle :=
  repeat match goal with
    | H : ?m !! ?k = _ |- context [?m !! ?k] => rewrite H
    end;
  rewrite ?lookup_insert_eq; rewrite ?lookup_insert_ne by done;
  rewrite ?lookup_insert_eq; rewrite ?String.eqb_refl;
  repeat match goal with
    | H : ?m !! ?k = _ |- context [?m !! ?k] => rewrite H
    end.

Ltac fork :=
  match goal with
  | |- context [match ?provider ?n ?p with Completed _ => _ | Failed _ => _ end] =>
      destruct (provider n p) eqn:?
  | |- context [if ?b then _ else _] => destruct b eqn:?
  end.

(** Use what the hypotheses say about the provider's replies. *)
Ltac told :=
  repeat match goal with
    | H : ?x = Completed _ |- context [?x] => rewrite H
    | H : ?x = Failed _ |- context [?x] => rewrite H
    | H : String.eqb ?x ?y = _ |- context [String.eqb ?x ?y] => rewrite H
    | H : Text.contains ?x ?y = _ |- context [Text.contains ?x ?y] => rewrite H
    end.

Ltac at_end :=
  match goal with
  | |- context [run_app ?p ?u ?w] => pattern (run_app p u w); apply ends_intro
  end.

Ltac finish :=
  unfold ends;
  lazy beta iota delta [fst snd session_state current_concept_txt page requests];
  settle.

(** Every branch of a run. *)
Ltac walk :=
  at_end; unroll; settle; repeat (progress (unroll; settle) || fork); finish.

(** The branches of a run the hypotheses leave open. *)
Ltac follow :=
  at_end; unroll; settle; told;
  repeat (progress (unroll; settle; told) || fork); finish.

Ltac sessions ui m :=
  destruct ui as [pa d sub sw];
  destruct (m !! "concept") as [c|] eqn:Hc;
  destruct (m !! "role_mode") as [r|] eqn:Hr.

Ltac inlist :=
  apply list_elem_of_In; cbn [In]; repeat (first [left; reflexivity | right]).

Ltac offlist :=
  let H := fresh in
  rewrite list_elem_of_In; cbn [In]; intros H;
  repeat (destruct H as [H|H]; [discriminate H|]); exact H.

Lemma yes_in_answer (v : string) :
  Text.contains "yes" (Text.lower (Text.strip v)) = true <-> Caseless.occurs "yes" v.
Proof.
  rewrite contains_lower_strip by done.
  by apply contains_lower_occurs.
Qed.

Lemma swap_roles_valid (s : string) : is_role_mode (swap_roles s).
Proof. unfold is_role_mode, swap_roles. destruct (String.eqb _ _); auto. Qed.

Section Extras.

Variable provider : nat -> params -> reply.

(** The detector says false when its request failed or when the answer is
    not the token. *)
Lemma check_if_cheating_false (c d : string) (w : world) :
  (check_if_cheating provider c d w).1 = Value false ->
  (exists e, provider (length (requests w)) (cheating_params c d) = Failed e)
  \/ (exists text,
        provider (length (requests w)) (cheating_params c d) = Completed text
        /\ String.eqb (Text.upper (Text.strip text)) "CHEATING" = false).
Proof.
  rewrite check_if_cheating_run. cbn zeta.
  destruct (provider _ _) as [text|e]; cbn; [|eauto].
  intros [= H]. eauto.
Qed.

(** ** The call to the provider *)


(** ** How a run ends and what it asks *)

(** X4. A run sends at most three requests for a description, one for Play
    Again, and one more when the session had no concept yet. *)
Theorem run_app_request_bound
    (ui : widgets) (m : gmap string string) (f : option string) :
  (length (requests (run_app provider ui (fresh_run m f)).2)
   <= (if bool_decide (is_Some (m !! "concept")) then 0 else 1)
      + (if play_again ui then 1 else 3))%nat.
Proof. sessions ui m; walk; cbn; lia. Qed.

(** X5. No run ever asks the provider for a description: none of its
    requests carries the system prompt of [describe_concept]. *)
Theorem run_app_never_describes
    (ui : widgets) (m : gmap string string) (f : option string) :
  Forall (fun p => is_describer_call p = false)
    (requests (run_app provider ui (fresh_run m f)).2).
Proof. sessions ui m; walk; repeat constructor. Qed.

(** ** What a run does to the session and the file *)




(** ** What the page shows *)


(** X11. With a role mode other than USER_DESCRIBES a run asks the provider
    nothing and draws no form, whatever was submitted; it shows the
    concept and leaves the concept and the file as they were. *)
Theorem llm_describes_run_is_idle
    (ui : widgets) (m : gmap string string) (f : option string) (c r : string) :
  m !! "concept" = Some c ->
  m !! "role_mode" = Some r ->
  r <> "USER_DESCRIBES" ->
  play_again ui = false ->
  let w' := (run_app provider ui (fresh_run m f)).2 in
  requests w' = []
  /\ (forall name, Form name ∉ page w')
  /\ Markdown (concept_card c) ∈ page w'
  /\ session_state w' !! "concept" = Some c
  /\ current_concept_txt w' = f.
Proof.
  destruct ui as [pa d sub sw]. cbn [play_again].
  intros Hc Hr Hne%String.eqb_neq ->. follow.
  all: rewrite ?lookup_insert_ne by done.
  all: repeat split; try done; try inlist; try (intros name; offlist).
Qed.

(** The game after a run with Swap Roles pressed. *)
Lemma swap_run_session
    (ui : widgets) (m : gmap string string) (f : option string) (c r : string) :
  m !! "concept" = Some c ->
  m !! "role_mode" = Some r ->
  play_again ui = false ->
  swap ui = true ->
  (run_app provider ui (fresh_run m f)).1 = Stopped
  /\ game_state (run_app provider ui (fresh_run m f)).2
     = (Some c, Some (swap_roles r))
  /\ current_concept_txt (run_app provider ui (fresh_run m f)).2 = f.
Proof.
  destruct ui as [pa d sub sw]. cbn [play_again swap].
  intros Hc Hr -> ->. unfold game_state. walk; done.
Qed.

(** ** The three calls of a turn *)

(** X13. When the description is not flagged and the Guesser's request
    fails, the turn ends there: the error is shown, no guess and no
    verdict appear, and the Verifier is not asked. *)
Theorem guesser_failure_ends_turn
    (ui : widgets) (m : gmap string string) (f : option string) (c e : string) :
  m !! "concept" = Some c ->
  m !! "role_mode" = Some "USER_DESCRIBES" ->
  play_again ui = false ->
  submit ui = true ->
  (check_if_cheating provider c (user_desc ui) (fresh_run m f)).1 = Value false ->
  provider 1%nat (guesser_params (user_desc ui)) = Failed e ->
  let w' := (run_app provider ui (fresh_run m f)).2 in
  requests w' = [cheating_params c (user_desc ui); guesser_params (user_desc ui)]
  /\ Error (api_error e) ∈ page w'
  /\ Forall (fun x => ~ shows_guess x /\ ~ shows_verdict x) (page w')
  /\ session_state w' !! "concept" = Some c.
Proof.
  destruct ui as [pa d sub sw]. cbn [play_again submit user_desc].
  intros Hc Hr -> -> Hv Hg. apply check_if_cheating_false in Hv.
  cbn [fresh_run requests length] in Hv.
  destruct Hv as [[e0 H0] | (t & H0 & Ht)]; follow.
  all: repeat split; try done; try inlist.
  all: repeat constructor; try (by intros [g [=]]); try (by intros [[=] | [=]]);
    apply card_is_not_a_guess.
Qed.

(** X14. When the Verifier's request fails after a guess, the page shows
    the guess, the error, and the message that the guess is not correct:
    a failed verification is reported as a wrong guess, never as a right
    one. *)
Theorem verifier_failure_counts_as_wrong
    (ui : widgets) (m : gmap string string) (f : option string) (c g e : string) :
  m !! "concept" = Some c ->
  m !! "role_mode" = Some "USER_DESCRIBES" ->
  play_again ui = false ->
  submit ui = true ->
  (check_if_cheating provider c (user_desc ui) (fresh_run m f)).1 = Value false ->
  provider 1%nat (guesser_params (user_desc ui)) = Completed g ->
  provider 2%nat (verify_params c (Text.strip g)) = Failed e ->
  let w' := (run_app provider ui (fresh_run m f)).2 in
  Markdown (guess_card (Text.strip g)) ∈ page w'
  /\ Error (api_error e) ∈ page w'
  /\ Error guess_wrong ∈ page w'
  /\ (Success guess_correct ∉ page w')
  /\ requests w' !! 2%nat = Some (verify_params c (Text.strip g)).
Proof.
  destruct ui as [pa d sub sw]. cbn [play_again submit user_desc].
  intros Hc Hr -> -> Hv Hg He. apply check_if_cheating_false in Hv.
  cbn [fresh_run requests length] in Hv.
  destruct Hv as [[e0 H0] | (t & H0 & Ht)]; follow.
  all: repeat split; try done; try inlist; offlist.
Qed.

(** X15. The page announces a correct guess exactly when the detector did
    not say cheating, the Guesser answered, and the Verifier, asked about
    the concept and the trimmed guess, answered with a text containing yes
    up to letter case. *)
Theorem success_needs_all_three
    (ui : widgets) (m : gmap string string) (f : option string) (c : string) :
  m !! "concept" = Some c ->
  m !! "role_mode" = Some "USER_DESCRIBES" ->
  play_again ui = false ->
  submit ui = true ->
  Success guess_correct ∈ page (run_app provider ui (fresh_run m f)).2
  <-> (check_if_cheating provider c (user_desc ui) (fresh_run m f)).1 = Value false
      /\ exists g v,
           provider 1%nat (guesser_params (user_desc ui)) = Completed g
           /\ provider 2%nat (verify_params c (Text.strip g)) = Completed v
           /\ Caseless.occurs "yes" v.
Proof.
  destruct ui as [pa d sub sw]. cbn [play_again submit user_desc].
  intros Hc Hr -> ->. rewrite check_if_cheating_run.
  cbn [fresh_run requests length]. cbn zeta.
  walk.
  all: split;
    [ intros Hin; apply list_elem_of_In in Hin; cbn [In] in Hin;
      repeat (destruct Hin as [Hin|Hin]; [try discriminate Hin|]);
      try contradiction
    | intros (Hv & g & v & Hg & Hvv & Hyes); try discriminate Hv;
      try discriminate Hg; injection Hg as <-;
      try discriminate Hvv; try (rewrite Hvv in *; discriminate);
      try (match goal with H : _ = Completed _ |- _ =>
             rewrite H in Hvv; injection Hvv as <- end);
      apply yes_in_answer in Hyes; try congruence; inlist ].
  all: split; [reflexivity|]; eexists _, _; repeat split; try eassumption;
    by apply yes_in_answer.
Qed.

End Extras.

(** X12. Swap Roles keeps the concept and the file and toggles the role
    mode.  A second run with Swap Roles, on any session that holds under
    concept and role_mode what the first run left there, ends with the
    concept and, when it was one of the two variants, the role mode the
    first run started from; the file is as it was. *)
Theorem swap_twice_restores_game
    (provider1 provider2 : nat -> params -> reply) (ui1 ui2 : widgets)
    (m m1 : gmap string string) (f : option string) (c r : string) :
  m !! "concept" = Some c ->
  m !! "role_mode" = Some r ->
  is_role_mode r ->
  play_again ui1 = false -> swap ui1 = true ->
  play_again ui2 = false -> swap ui2 = true ->
  let w1 := (run_app provider1 ui1 (fresh_run m f)).2 in
  m1 !! "concept" = session_state w1 !! "concept" ->
  m1 !! "role_mode" = session_state w1 !! "role_mode" ->
  let w2 := (run_app provider2 ui2 (fresh_run m1 (current_concept_txt w1))).2 in
  game_state w1 = (Some c, Some (swap_roles r))
  /\ game_state w2 = (Some c, Some r)
  /\ current_concept_txt w2 = f.
Proof.
  intros Hc Hr Hvalid Hp1 Hs1 Hp2 Hs2 w1 Hc1 Hr1 w2.
  destruct (swap_run_session provider1 ui1 m f c r) as (_ & Hg1 & Hf1); try done.
  fold w1 in Hg1, Hf1. unfold game_state in Hg1. injection Hg1 as Hg1c Hg1r.
  rewrite Hg1c in Hc1. rewrite Hg1r in Hr1.
  destruct (swap_run_session provider2 ui2 m1 (current_concept_txt w1)
              c (swap_roles r))
    as (_ & Hg2 & Hf2); try done.
  fold w2 in Hg2, Hf2. repeat split.
  - unfold game_state. by rewrite Hg1c, Hg1r.
  - rewrite Hg2. by destruct Hvalid as [-> | ->].
  - by rewrite Hf2.
Qed.

(** X17. Both parsers read the provider's answer up to letter case and
    surrounding white space: two answers that match in this sense get the
    same verdict from [check_if_cheating] and from [verify_guess]. *)
Theorem parsers_ignore_case_and_padding
    (provider1 provider2 : nat -> params -> reply) (w1 w2 : world)
    (concept description guess t1 t2 : string) :
  Caseless.matches (Text.strip t1) (Text.strip t2) = true ->
  (provider1 (length (requests w1)) (cheating_params concept description) = Completed t1 ->
   provider2 (length (requests w2)) (cheating_params concept description) = Completed t2 ->
   (check_if_cheating provider1 concept description w1).1
   = (check_if_cheating provider2 concept description w2).1)
  /\ (provider1 (length (requests w1)) (verify_params concept guess) = Completed t1 ->
      provider2 (length (requests w2)) (verify_params concept guess) = Completed t2 ->
      (verify_guess provider1 concept guess w1).1
      = (verify_guess provider2 concept guess w2).1).
Proof.
  intros Hm. split; intros H1 H2.
  - rewrite !check_if_cheating_run. cbn zeta. rewrite H1, H2. cbn [fst].
    apply matches_upper in Hm. by rewrite Hm.
  - rewrite !verify_guess_run. cbn zeta. rewrite H1, H2. cbn [fst].
    apply lower_eq_matches in Hm. by rewrite Hm.
Qed.

(** ** The further properties on the scenarios *)





Lemma llm_describes_run_is_idle_witness :
  requests
    (run_app outage (Widgets false "A mountain that can erupt" true false)
       (fresh_run (session_of "vulkaan" "LLM_DESCRIBES") None)).2 = [].
Proof.
  apply (llm_describes_run_is_idle outage
           (Widgets false "A mountain that can erupt" true false)
           (session_of "vulkaan" "LLM_DESCRIBES") None "vulkaan" "LLM_DESCRIBES");
    (reflexivity || discriminate).
Defined.

Lemma swap_twice_restores_game_witness :
  game_state
    (run_app outage (Widgets false "" false true)
       (fresh_run (session_of "vulkaan" "LLM_DESCRIBES")
          (current_concept_txt
             (run_app outage (Widgets false "" false true)
                (fresh_run (session_of "vulkaan" "USER_DESCRIBES") None)).2))).2
  = (Some "vulkaan", Some "USER_DESCRIBES").
Proof.
  apply (swap_twice_restores_game outage outage
           (Widgets false "" false true) (Widgets false "" false true)
           (session_of "vulkaan" "USER_DESCRIBES")
           (session_of "vulkaan" "LLM_DESCRIBES") None
           "vulkaan" "USER_DESCRIBES");
    try reflexivity.
  left. reflexivity.
Defined.

Lemma guesser_failure_ends_turn_witness :
  requests
    (run_app (scripted [Completed "NOT CHEATING"; Failed "busy"])
       (Widgets false "A mountain that can erupt" true false)
       (fresh_run (session_of "vulkaan" "USER_DESCRIBES") None)).2
  = [ cheating_params "vulkaan" "A mountain that can erupt";
      guesser_params "A mountain that can erupt" ].
Proof.
  apply (guesser_failure_ends_turn
           (scripted [Completed "NOT CHEATING"; Failed "busy"])
           (Widgets false "A mountain that can erupt" true false)
           (session_of "vulkaan" "USER_DESCRIBES") None "vulkaan" "busy");
    reflexivity.
Defined.

Lemma verifier_failure_counts_as_wrong_witness :
  Error guess_wrong ∈
    page
      (run_app (scripted [Completed "NOT CHEATING"; Completed "volcano"; Failed "busy"])
         (Widgets false "A mountain that can erupt" true false)
         (fresh_run (session_of "vulkaan" "USER_DESCRIBES") None)).2.
Proof.
  apply (verifier_failure_counts_as_wrong
           (scripted [Completed "NOT CHEATING"; Completed "volcano"; Failed "busy"])
           (Widgets false "A mountain that can erupt" true false)
           (session_of "vulkaan" "USER_DESCRIBES") None
           "vulkaan" "volcano" "busy");
    reflexivity.
Defined.

Lemma success_needs_all_three_witness :
  Success guess_correct ∈
    page
      (run_app (scripted [Completed "NOT CHEATING"; Completed "volcano"; Completed "yes"])
         (Widgets false "A mountain that can erupt" true false)
         (fresh_run (session_of "vulkaan" "USER_DESCRIBES") None)).2
  <-> (check_if_cheating
         (scripted [Completed "NOT CHEATING"; Completed "volcano"; Completed "yes"])
         "vulkaan" "A mountain that can erupt"
         (fresh_run (session_of "vulkaan" "USER_DESCRIBES") None)).1 = Value false
      /\ exists g v,
           scripted [Completed "NOT CHEATING"; Completed "volcano"; Completed "yes"]
             1%nat (guesser_params "A mountain that can erupt") = Completed g
           /\ scripted [Completed "NOT CHEATING"; Completed "volcano"; Completed "yes"]
                2%nat (verify_params "vulkaan" (Text.strip g)) = Completed v
           /\ Caseless.occurs "yes" v.
Proof.
  apply (success_needs_all_three
           (scripted [Completed "NOT CHEATING"; Completed "volcano"; Completed "yes"])
           (Widgets false "A mountain that can erupt" true false)
           (session_of "vulkaan" "USER_DESCRIBES") None "vulkaan");
    reflexivity.
Defined.

Lemma parsers_ignore_case_and_padding_witness :
  (check_if_cheating (fun _ _ => Completed " Cheating ") "vulkaan"
     "It's called vulkaan" (fresh_run ∅ None)).1
  = (check_if_cheating (fun _ _ => Completed "CHEATING") "vulkaan"
       "It's called vulkaan" (fresh_run ∅ None)).1.
Proof.
  apply (parsers_ignore_case_and_padding
           (fun _ _ => Completed " Cheating ") (fun _ _ => Completed "CHEATING")
           (fresh_run ∅ None) (fresh_run ∅ None)
           "vulkaan" "It's called vulkaan" "volcano" " Cheating " "CHEATING");
    reflexivity.
Defined.
